(** * Vendure documentation service: navigation, pagination and the cache chain

    A shallow embedding of [VendureDocsService] (utils/vendure-docs-service.ts)
    and the statements of its specification that are settled on it.

    Conventions of the embedding.
    - A JavaScript string is a sequence of code units.  The development
      takes code units in the Latin-1 range, one [ascii] each, so a string
      is a [list ascii] ([text]).  In that range [\s] and [trim] agree on
      the characters 9-13, 32 and 160, [.] excludes 10 and 13, and
      [toLowerCase] is a per-character map.
    - JavaScript numbers that the service handles (page numbers, sizes,
      line indices, epoch milliseconds) are integers, modelled in [Z].
    - Optional object fields are [option]s; an object needing [?.] is an
      [option] of a record.
    - The asynchronous methods touch the two memory slots, the cache
      directory, the clock, the network and the project context.  State is
      passed explicitly ([World]), the answers of the outside world to one
      call are collected in an [Env], and every method that performs I/O
      returns the list of [Event]s it caused. *)

From Stdlib Require Import ZArith Ascii String DecimalString.
From stdpp Require Import base tactics option list strings gmap.

Local Open Scope Z_scope.

(** ** Text *)

Definition text := list ascii.

Definition lit (s : string) : text := list_ascii_of_string s.

Definition nl : ascii := "010"%char.
Definition cr : ascii := "013"%char.
Definition dq : ascii := "034"%char.
Definition tab : ascii := "009"%char.
Definition hash : ascii := "#"%char.
Definition lparen : ascii := "("%char.

(** [`${n}`] for an integer [n], in decimal.  JavaScript prints an integer
    in this way, digit for digit, as long as it is a safe integer (its
    absolute value is below [2^53]); statements that print a number an
    input can make larger carry that bound. *)
Definition numToString (n : Z) : text :=
  lit (NilZero.string_of_int (Z.to_int n)).

(** [s.split(sep)] for a one-character separator. *)
Fixpoint split (sep : ascii) (s : text) : list text :=
  match s with
  | [] => [[]]
  | c :: s' =>
      if Ascii.eqb c sep then [] :: split sep s'
      else match split sep s' with
           | h :: t => (c :: h) :: t
           | [] => [[c]]
           end
  end.

(** [xs.join(sep)]. *)
Fixpoint join (sep : text) (xs : list text) : text :=
  match xs with
  | [] => []
  | [x] => x
  | x :: rest => x ++ sep ++ join sep rest
  end.

(** [xs.slice(start, end)]: negative indices count from the end, both
    bounds are clamped to the length. *)
Definition relIndex (len : nat) (i : Z) : nat :=
  if i <? 0 then Z.to_nat (Z.max (Z.of_nat len + i) 0)
  else Z.to_nat (Z.min i (Z.of_nat len)).

Definition slice {A} (xs : list A) (start stop : Z) : list A :=
  let k := relIndex (length xs) start in
  let f := relIndex (length xs) stop in
  take (f - k)%nat (drop k xs).

(** [Math.ceil(a / b)] on integers, [b] not zero. *)
Definition ceilDiv (a b : Z) : Z := - ((- a) / b).

(** ** Results *)

Module Metadata.
Record t := mk {
  totalSections : option Z;
  currentSection : option text;
  totalPages : option Z;
  currentPage : option Z;
  pageSize : option Z
}.
Definition empty : t := mk None None None None None.
End Metadata.

Module PaginationResult.
Record t := mk { content : text; metadata : Metadata.t }.
End PaginationResult.

(** ** Numeric pagination *)

(** [getPage(content, page, pageSize)].  The only caller passes
    [options.pageSize || 5000], so [pageSize] is never zero here. *)
Definition getPage (content : text) (page pageSize : Z) : PaginationResult.t :=
  let lines := split nl content in
  let totalPages := ceilDiv (Z.of_nat (length lines)) pageSize in
  if (page <? 1) || (page >? totalPages) then
    PaginationResult.mk
      (lit "# Invalid Page" ++ [nl; nl] ++ lit "Page " ++ numToString page
         ++ lit " is out of range. Total pages: " ++ numToString totalPages)
      (Metadata.mk None None (Some totalPages) None (Some pageSize))
  else
    let startLine := (page - 1) * pageSize in
    let endLine := Z.min (startLine + pageSize) (Z.of_nat (length lines)) in
    let pageContent := join [nl] (slice lines startLine endLine) in
    PaginationResult.mk pageContent
      (Metadata.mk None None (Some totalPages) (Some page) (Some pageSize)).

(** ** Character classes and string helpers *)

(** [\s] in the Latin-1 range; [trim] strips the same characters. *)
Definition isSpace (c : ascii) : bool :=
  let n := N_of_ascii c in
  ((9 <=? n) && (n <=? 13) || (n =? 32) || (n =? 160))%N.

(** [.] without the [s] flag: anything but a line terminator. *)
Definition isDot (c : ascii) : bool :=
  negb (Ascii.eqb c nl) && negb (Ascii.eqb c cr).

Definition isHash (c : ascii) : bool := Ascii.eqb c hash.

Fixpoint trimStart (s : text) : text :=
  match s with
  | c :: s' => if isSpace c then trimStart s' else s
  | [] => []
  end.

Definition trimEnd (s : text) : text := rev (trimStart (rev s)).

Definition trim (s : text) : text := trimEnd (trimStart s).

Definition lowerChar (c : ascii) : ascii :=
  let n := N_of_ascii c in
  if ((65 <=? n) && (n <=? 90)
      || (192 <=? n) && (n <=? 222) && negb (n =? 215))%N
  then ascii_of_N (n + 32) else c.

Definition toLowerCase (s : text) : text := map lowerChar s.

Fixpoint startsWith (s p : text) : bool :=
  match p, s with
  | [], _ => true
  | a :: p', b :: s' => Ascii.eqb a b && startsWith s' p'
  | _ :: _, [] => false
  end.

(** [s.includes(sub)]. *)
Fixpoint includes (s sub : text) : bool :=
  startsWith s sub ||
  match s with
  | [] => false
  | _ :: s' => includes s' sub
  end.

Definition repeatStr (s : text) (n : Z) : text :=
  concat (replicate (Z.to_nat n) s).

(** ** The heading pattern [/^(#{1,6})\s+(.+)$/] *)

(** One greedy quantified character class [p{lo,hi}] ([hi = None] for no
    upper bound) followed by the rest of the pattern [k], which receives
    the characters consumed and the remaining input.  The longest run is
    tried first; when the rest of the pattern fails the matcher backtracks
    to shorter runs, down to [lo]. *)
Fixpoint greedy {R} (p : ascii -> bool) (lo : nat) (hi : option nat)
    (s : text) (k : text -> text -> option R) : option R :=
  let stop := match lo with O => k [] s | S _ => None end in
  match s with
  | c :: s' =>
      if p c && negb (bool_decide (hi = Some O)) then
        match greedy p (Nat.pred lo) (Nat.pred <$> hi) s'
                (fun m r => k (c :: m) r) with
        | Some x => Some x
        | None => stop
        end
      else stop
  | [] => stop
  end.

(** What the quantifier [p{lo,hi}] may consume. *)
Definition run (p : ascii -> bool) (lo : nat) (hi : option nat) (m : text) : Prop :=
  Forall (fun c => p c = true) m ∧ (lo ≤ length m)%nat
  ∧ ∀ h, hi = Some h → (length m ≤ h)%nat.

(** [line.match(/^(#{1,6})\s+(.+)$/)]: the two captured groups. *)
Definition headerMatch (line : text) : option (text * text) :=
  greedy isHash 1 (Some 6%nat) line (fun g1 r1 =>
    greedy isSpace 1 None r1 (fun _ r2 =>
      greedy isDot 1 None r2 (fun g2 r3 =>
        match r3 with
        | [] => Some (g1, g2)
        | _ :: _ => None
        end))).

(** ** Sections *)

Module DocSection.
Record t := mk {
  title : text;
  level : Z;
  content : text;
  startLine : Z;
  endLine : Z
}.
Definition setEndLine (s : t) (e : Z) : t :=
  mk (title s) (level s) (content s) (startLine s) e.
Definition appendContent (s : t) (more : text) : t :=
  mk (title s) (level s) (content s ++ more) (startLine s) (endLine s).
End DocSection.

(** The state of the scan: the sections pushed so far and the open one. *)
Definition ParseState : Type := list DocSection.t * option DocSection.t.

(** The body of the [for] loop of [parseSections] at one [index]. *)
Definition parseLine (index : Z) (line : text) (st : ParseState) : ParseState :=
  let '(sections, currentSection) := st in
  match headerMatch line with
  | Some (g1, g2) =>
      let sections' :=
        match currentSection with
        | Some cur => sections ++ [DocSection.setEndLine cur (index - 1)]
        | None => sections
        end in
      (sections',
       Some (DocSection.mk (trim g2) (Z.of_nat (length g1)) (line ++ [nl])
               index index))
  | None =>
      match currentSection with
      | Some cur => (sections, Some (DocSection.appendContent cur (line ++ [nl])))
      | None => (sections, None)
      end
  end.

Fixpoint parseLoop (lines : list text) (index : Z) (st : ParseState) : ParseState :=
  match lines with
  | [] => st
  | line :: rest => parseLoop rest (index + 1) (parseLine index line st)
  end.

Definition parseSections (content : text) : list DocSection.t :=
  let lines := split nl content in
  let '(sections, currentSection) := parseLoop lines 0 ([], None) in
  match currentSection with
  | Some cur =>
      sections ++ [DocSection.setEndLine cur (Z.of_nat (length lines) - 1)]
  | None => sections
  end.

(** The shape of a heading line: [k] hashes, one to six of them, then the
    white space [w], not empty, then the text [t], not empty and free of
    line terminators. *)
Definition heading (line : text) (k : nat) (w t : text) : Prop :=
  (1 ≤ k ≤ 6)%nat ∧ line = replicate k hash ++ w ++ t
  ∧ w ≠ [] ∧ Forall (fun c => isSpace c = true) w
  ∧ t ≠ [] ∧ Forall (fun c => isDot c = true) t.

(** The shape in the words of the specification: one to six hashes, at
    least one space, and trailing text that is not empty. *)
Definition specHeading (line : text) : Prop :=
  ∃ (k : nat) (w t : text),
    (1 ≤ k ≤ 6)%nat ∧ line = replicate k hash ++ w ++ t
    ∧ w ≠ [] ∧ Forall (fun c => c = " "%char) w ∧ t ≠ [].

(** Line [i] of the document opens a section. *)
Definition opensSection (content : text) (i : nat) : Prop :=
  ∃ s, s ∈ parseSections content ∧ DocSection.startLine s = Z.of_nat i.

(** What a section keeps from the line that opened it, and the list of
    these for the heading lines of a document from line [index] on. *)
Definition sectionKey (s : DocSection.t) : Z * Z * text :=
  (DocSection.startLine s, DocSection.level s, DocSection.title s).

Definition stateKeys (st : ParseState) : list (Z * Z * text) :=
  map sectionKey (st.1 ++ option_list st.2).

Fixpoint headingKeys (lines : list text) (index : Z) : list (Z * Z * text) :=
  match lines with
  | [] => []
  | line :: rest =>
      match headerMatch line with
      | Some (g1, g2) => [(index, Z.of_nat (length g1), trim g2)]
      | None => []
      end ++ headingKeys rest (index + 1)
  end.

(** ** Navigation *)

Definition tocHeader : text :=
  lit "# Vendure Documentation - Table of Contents" ++ [nl; nl]
  ++ lit "Use the `section` parameter to retrieve specific sections." ++ [nl; nl]
  ++ lit "## Available Sections" ++ [nl; nl].

Definition tocUsage : text :=
  [nl] ++ lit "## Usage Examples" ++ [nl; nl]
  ++ lit "- Get specific section: `{ " ++ [dq] ++ lit "type" ++ [dq] ++ lit ": "
  ++ [dq] ++ lit "standard" ++ [dq] ++ lit ", " ++ [dq] ++ lit "section" ++ [dq]
  ++ lit ": " ++ [dq] ++ lit "Core Concepts" ++ [dq] ++ lit " }`" ++ [nl]
  ++ lit "- Get page 1: `{ " ++ [dq] ++ lit "type" ++ [dq] ++ lit ": "
  ++ [dq] ++ lit "standard" ++ [dq] ++ lit ", " ++ [dq] ++ lit "page" ++ [dq]
  ++ lit ": 1, " ++ [dq] ++ lit "pageSize" ++ [dq] ++ lit ": 5000 }`" ++ [nl].

Definition tocEntry (index : nat) (section : DocSection.t) : text :=
  let indent := repeatStr (lit "  ") (DocSection.level section - 1) in
  indent ++ numToString (Z.of_nat index + 1) ++ lit ". "
    ++ DocSection.title section ++ [nl].

Definition getTableOfContents (content : text) : PaginationResult.t :=
  let sections := parseSections content in
  let toc := tocHeader ++ concat (imap tocEntry sections) ++ tocUsage in
  PaginationResult.mk toc
    (Metadata.mk (Some (Z.of_nat (length sections))) None None None None).

Definition sectionMatches (sectionTitle : text) (s : DocSection.t) : bool :=
  includes (toLowerCase (DocSection.title s)) (toLowerCase sectionTitle).

Definition getSection (content sectionTitle : text) : PaginationResult.t :=
  let sections := parseSections content in
  match List.find (sectionMatches sectionTitle) sections with
  | None =>
      let availableSections :=
        join ([nl] ++ lit "- ") (map DocSection.title sections) in
      PaginationResult.mk
        (lit "# Section Not Found" ++ [nl; nl]
           ++ lit "Could not find section matching: " ++ [dq] ++ sectionTitle
           ++ [dq] ++ [nl; nl] ++ lit "## Available sections:" ++ [nl]
           ++ lit "- " ++ availableSections)
        (Metadata.mk (Some (Z.of_nat (length sections))) None None None None)
  | Some section =>
      PaginationResult.mk (DocSection.content section)
        (Metadata.mk (Some (Z.of_nat (length sections)))
           (Some (DocSection.title section)) None None None)
  end.

(** ** Static fallback texts *)

Definition getFallbackLlmsTxt : text :=
  join [nl] [
    lit "# Vendure E-commerce Framework";
    [];
    lit "Vendure is a modern, headless e-commerce framework built with TypeScript and Node.js.";
    [];
    lit "## Core Concepts";
    [];
    lit "### Project Structure";
    lit "- **Entities**: Custom database entities " ++ [lparen] ++ lit "*.entity.ts)";
    lit "- **Services**: Business logic services " ++ [lparen] ++ lit "*.service.ts)";
    lit "- **Plugins**: Modular extensions " ++ [lparen] ++ lit "*.plugin.ts)";
    lit "- **Migrations**: Database schema changes";
    lit "- **Configuration**: vendure-config.ts file";
    [];
    lit "### CLI Commands";
    lit "- **vendure add**: Add plugins, entities, services, and other components";
    lit "- **vendure migrate**: Run database migrations";
    lit "- **vendure init**: Initialize new Vendure project";
    [];
    lit "### Plugin System";
    lit "- Plugins extend Vendure functionality";
    lit "- Can add new GraphQL schema, services, entities";
    lit "- Support for payment providers, shipping methods, custom fields";
    [];
    lit "### Database Support";
    lit "- PostgreSQL (recommended)";
    lit "- MySQL/MariaDB";
    lit "- SQLite (development)";
    [];
    lit "## Documentation Links";
    [];
    lit "- Main Documentation: https://docs.vendure.io/";
    lit "- Plugin Development: https://docs.vendure.io/guides/developer-guide/plugins/";
    lit "- CLI Guide: https://docs.vendure.io/guides/developer-guide/cli/";
    lit "- API Reference: https://docs.vendure.io/reference/";
    lit "- GraphQL API: https://docs.vendure.io/graphql-api/";
    lit "- Configuration: https://docs.vendure.io/reference/vendure-config/";
    [];
    lit "## Best Practices";
    [];
    lit "- Use TypeScript for type safety";
    lit "- Follow plugin architecture for extensions";
    lit "- Implement proper error handling";
    lit "- Use database transactions for data consistency";
    lit "- Follow security best practices for authentication";
    [];
    lit "For specific implementation details, refer to the comprehensive documentation at docs.vendure.io";
    [];
    lit "Note: This is fallback content. Official documentation may be temporarily unavailable."
  ].

Definition getFallbackLlmsFullTxt : text :=
  join [nl] [
    lit "# Vendure E-commerce Framework - Complete Reference";
    [];
    lit "Vendure is a modern, headless GraphQL-first e-commerce framework built with TypeScript and Node.js.";
    [];
    lit "## Architecture Overview";
    [];
    lit "### Core Components";
    lit "- **Admin UI**: Angular-based administration interface";
    lit "- **Shop API**: Customer-facing GraphQL API";
    lit "- **Admin API**: Administration GraphQL API";
    lit "- **Worker**: Background job processing";
    lit "- **Plugin System**: Extensible architecture";
    [];
    lit "### Technology Stack";
    lit "- TypeScript/Node.js backend";
    lit "- GraphQL API (using Apollo Server)";
    lit "- Database: PostgreSQL, MySQL, or SQLite";
    lit "- ORM: TypeORM for database operations";
    lit "- Authentication: JWT-based sessions";
    [];
    lit "## CLI Commands Reference";
    [];
    lit "### vendure add";
    lit "Add components to your Vendure project:";
    lit "- `vendure add plugin`: Add a new plugin";
    lit "- `vendure add entity`: Add a custom entity";
    lit "- `vendure add service`: Add a new service";
    lit "- `vendure add job-queue`: Add job queue functionality";
    lit "- `vendure add ui-extension`: Add Admin UI extensions";
    [];
    lit "### vendure migrate";
    lit "Database migration management:";
    lit "- `vendure migrate`: Run pending migrations";
    lit "- `vendure migrate:revert`: Revert last migration";
    lit "- `vendure migrate:generate`: Generate new migration";
    [];
    lit "## Documentation Resources";
    [];
    lit "### Primary Resources";
    lit "- Official Documentation: https://docs.vendure.io/";
    lit "- Getting Started: https://docs.vendure.io/guides/getting-started/";
    lit "- Developer Guide: https://docs.vendure.io/guides/developer-guide/";
    lit "- Plugin Development: https://docs.vendure.io/guides/developer-guide/plugins/";
    lit "- CLI Reference: https://docs.vendure.io/guides/developer-guide/cli/";
    [];
    lit "### API Documentation";
    lit "- GraphQL Playground: http://localhost:3000/admin-api (when running)";
    lit "- Shop API Schema: https://docs.vendure.io/graphql-api/shop/";
    lit "- Admin API Schema: https://docs.vendure.io/graphql-api/admin/";
    lit "- TypeScript API: https://docs.vendure.io/reference/";
    [];
    lit "### Community Resources";
    lit "- GitHub Repository: https://github.com/vendure-ecommerce/vendure";
    lit "- Discord Community: https://vendure.io/community/";
    lit "- YouTube Channel: Vendure E-commerce";
    lit "- Blog: https://vendure.io/blog/";
    [];
    lit "Note: This is fallback content. For the most comprehensive and up-to-date documentation, the service attempts to fetch from docs.vendure.io. If you're seeing this message, the official documentation may be temporarily unavailable."
  ].

(** ** The cache chain *)

Module CachedContent.
Record t := mk { content : text; timestamp : Z }.
End CachedContent.

Definition CACHE_TTL_MS : Z := 24 * 60 * 60 * 1000.
Definition CACHE_DIR : string := ".vendure-docs-cache".

Inductive CacheType := llms | full.
Inductive DocType := fullDocs | standardDocs.

(** The two private slots of the service and the files of the cache
    directory, keyed by file name; a file holds the JSON of one
    [CachedContent]. *)
Record World := mkWorld {
  llmsTxtCache : option CachedContent.t;
  llmsFullTxtCache : option CachedContent.t;
  disk : gmap string CachedContent.t
}.

(** What the outside world answers during one resolution. *)
Record Env := mkEnv {
  (** [Date.now()] when the memory slot is tested. *)
  nowAtCheck : Z;
  (** [fetch]: the body of an ok response, [None] when the request throws
      or the status is not ok. *)
  httpResponse : string -> option text;
  (** [Date.now()] when a fetched document is stamped. *)
  nowAtStore : Z;
  (** [mkdir] and [writeFile] succeed. *)
  diskWritable : bool;
  (** [readFile] and [JSON.parse] succeed on an existing file. *)
  diskReadable : bool;
  (** [Date.now()] when a loaded file is tested. *)
  nowAtLoad : Z;
  (** [unlink] succeeds. *)
  unlinkOk : bool;
  (** [getProjectContext()]: the project path, [None] when it throws. *)
  projectPath : option text
}.

Inductive Event :=
  | HttpGet (filename : string)
  | WriteFile (file : string)
  | ReadFile (file : string)
  | Unlink (file : string)
  | Warn.

(** Computations on the world that log their I/O. *)
Definition IO (A : Type) : Type := World -> A * World * list Event.

Global Instance IO_ret : MRet IO := fun A (a : A) w => (a, w, []).

Global Instance IO_bind : MBind IO := fun A B (k : A -> IO B) (m : IO A) w =>
  let '(a, w1, t1) := m w in
  let '(b, w2, t2) := k a w1 in
  (b, w2, t1 ++ t2).

Definition emit (e : Event) : IO unit := fun w => (tt, w, [e]).
Definition getWorld : IO World := fun w => (w, w, []).
Definition putWorld (w' : World) : IO unit := fun _ => (tt, w', []).

Definition cacheFile (filename : string) : string :=
  (CACHE_DIR +:+ "/" +:+ filename +:+ ".json")%string.

Definition slot (cacheType : CacheType) (w : World) : option CachedContent.t :=
  match cacheType with
  | llms => llmsTxtCache w
  | full => llmsFullTxtCache w
  end.

Definition setSlot (cacheType : CacheType) (c : CachedContent.t) : IO unit :=
  fun w =>
    (tt,
     match cacheType with
     | llms => mkWorld (Some c) (llmsFullTxtCache w) (disk w)
     | full => mkWorld (llmsTxtCache w) (Some c) (disk w)
     end, []).

Definition isCacheValid (now : Z) (cache : CachedContent.t) : bool :=
  now - CachedContent.timestamp cache <? CACHE_TTL_MS.

Definition projectContextHeader (projectPath : text) : text :=
  [nl] ++ lit "# Current Project Context" ++ [nl]
  ++ lit "Project Path: " ++ projectPath ++ [nl; nl]
  ++ lit "## Available MCP Tools" ++ [nl]
  ++ lit "- vendure_add: Add plugins, entities, services to your project" ++ [nl]
  ++ lit "- vendure_migrate: Run database migrations" ++ [nl]
  ++ lit "- vendure_analyse: Analyze project structure (tasks: list_plugins, analyze_project_structure, check_vendure_installation, get_database_type)" ++ [nl; nl]
  ++ lit "---" ++ [nl; nl].

Definition getFallbackContent (filename : string) : text :=
  if String.eqb filename "llms.txt" then getFallbackLlmsTxt
  else if String.eqb filename "llms-full.txt" then getFallbackLlmsFullTxt
  else lit "# " ++ lit filename ++ [nl; nl]
       ++ lit "Fallback content - official documentation temporarily unavailable.".

Section Service.
Variable env : Env.

Definition enhanceWithProjectContext (content : text) : text :=
  match projectPath env with
  | Some path => projectContextHeader path ++ content
  | None => content
  end.

(** [None] stands for the thrown error. *)
Definition fetchFromWeb (filename : string) : IO (option text) :=
  emit (HttpGet filename);; mret (httpResponse env filename).

Definition saveToDiskCache (filename : string) (cache : CachedContent.t) : IO unit :=
  emit (WriteFile (cacheFile filename));;
  if diskWritable env then
    w ← getWorld;
    putWorld (mkWorld (llmsTxtCache w) (llmsFullTxtCache w)
                (<[cacheFile filename := cache]> (disk w)))
  else emit Warn.

Definition loadFromDiskCache (filename : string) : IO (option CachedContent.t) :=
  emit (ReadFile (cacheFile filename));;
  w ← getWorld;
  match disk w !! cacheFile filename with
  | Some cache =>
      if diskReadable env then
        if isCacheValid (nowAtLoad env) cache then mret (Some cache)
        else
          emit (Unlink (cacheFile filename));;
          (if unlinkOk env then
             putWorld (mkWorld (llmsTxtCache w) (llmsFullTxtCache w)
                         (delete (cacheFile filename) (disk w)))
           else mret tt);;
          mret None
      else mret None
  | None => mret None
  end.

(** The [try]/[catch] part of [getDocumentContent], entered when the
    memory slot is empty or stale. *)
Definition refresh (filename : string) (cacheType : CacheType) : IO text :=
  fetched ← fetchFromWeb filename;
  match fetched with
  | Some content =>
      let contentToCache :=
        match cacheType with
        | full => enhanceWithProjectContext content
        | llms => content
        end in
      let cachedContent := CachedContent.mk contentToCache (nowAtStore env) in
      setSlot cacheType cachedContent;;
      saveToDiskCache filename cachedContent;;
      mret contentToCache
  | None =>
      emit Warn;;
      diskCached ← loadFromDiskCache filename;
      match diskCached with
      | Some c =>
          setSlot cacheType c;;
          mret (CachedContent.content c)
      | None =>
          emit Warn;;
          let fallbackContent := getFallbackContent filename in
          mret (match cacheType with
                | full => enhanceWithProjectContext fallbackContent
                | llms => fallbackContent
                end)
      end
  end.

Definition getDocumentContent (filename : string) (cacheType : CacheType) : IO text :=
  w ← getWorld;
  match slot cacheType w with
  | Some cache =>
      if isCacheValid (nowAtCheck env) cache
      then mret (CachedContent.content cache)
      else refresh filename cacheType
  | None => refresh filename cacheType
  end.

Definition getLlmsTxt : IO text := getDocumentContent "llms.txt" llms.
Definition getLlmsFullTxt : IO text := getDocumentContent "llms-full.txt" full.
End Service.

(** ** Dispatch *)

Module Options.
Record t := mk {
  section : option text;
  page : option Z;
  pageSize : option Z
}.
End Options.

(** Truthiness of an optional string and of an optional number. *)
Definition truthyText (o : option text) : bool :=
  match o with
  | Some (_ :: _) => true
  | _ => false
  end.

Definition truthyNum (o : option Z) : bool :=
  match o with
  | Some n => negb (n =? 0)
  | None => false
  end.

(** [n || d]. *)
Definition orElse (o : option Z) (d : Z) : Z :=
  if truthyNum o then default d o else d.

(** [type === 'full' ? await this.getLlmsFullTxt() : await this.getLlmsTxt()] *)
Definition resolveDoc (env : Env) (type : DocType) : IO text :=
  match type with
  | fullDocs => getLlmsFullTxt env
  | standardDocs => getLlmsTxt env
  end.

(** The branches of [getPaginatedDocs] once the document is resolved;
    [section], [page] and [pageSize] are [options?.section] and so on. *)
Definition selectView (fullContent : text) (section : option text)
    (page pageSize : option Z) : PaginationResult.t :=
  if negb (truthyText section) && negb (truthyNum page) then
    getTableOfContents fullContent
  else if truthyText section then
    getSection fullContent (default [] section)
  else
    match page with
    | Some page => getPage fullContent page (orElse pageSize 5000)
    | None => PaginationResult.mk fullContent Metadata.empty
    end.

Definition getPaginatedDocs (env : Env) (type : DocType)
    (options : option Options.t) : IO PaginationResult.t :=
  fullContent ← resolveDoc env type;
  mret (selectView fullContent (options ≫= Options.section)
          (options ≫= Options.page) (options ≫= Options.pageSize)).

(** ** The document of the concrete scenarios *)

Definition doc_AB : text :=
  lit "# A" ++ [nl] ++ lit "x" ++ [nl] ++ lit "## B" ++ [nl] ++ lit "y" ++ [nl].

(** A world whose standard slot holds that document, stamped at time 0,
    and an outside world one second later in which nothing else answers. *)
Definition world_AB : World :=
  mkWorld (Some (CachedContent.mk doc_AB 0)) None ∅.

Definition env_quiet : Env :=
  mkEnv 1000 (fun _ => None) 1000 false false 1000 false None.

(** The message of [getPage] for a page out of range. *)
Definition invalidPage (page totalPages pageSize : Z) : PaginationResult.t :=
  PaginationResult.mk
    (lit "# Invalid Page" ++ [nl; nl] ++ lit "Page " ++ numToString page
       ++ lit " is out of range. Total pages: " ++ numToString totalPages)
    (Metadata.mk None None (Some totalPages) None (Some pageSize)).

(** A page that is in range. *)
Definition validPage (body : text) (page totalPages pageSize : Z) : PaginationResult.t :=
  PaginationResult.mk body
    (Metadata.mk None None (Some totalPages) (Some page) (Some pageSize)).

(** The memory slot answers at time [now]: it is filled and not stale. *)
Definition memoryFresh (now : Z) (cacheType : CacheType) (w : World) : bool :=
  match slot cacheType w with
  | Some cache => isCacheValid now cache
  | None => false
  end.

Definition world_empty : World := mkWorld None None ∅.

(** A world whose cache directory holds the standard document, written at
    time 0, and an outside world two days later where the network is down
    and the file system works. *)
Definition world_disk_AB : World :=
  mkWorld None None {[ cacheFile "llms.txt" := CachedContent.mk doc_AB 0 ]}.

Definition env_offline : Env :=
  mkEnv (2 * CACHE_TTL_MS) (fun _ => None) (2 * CACHE_TTL_MS) true true
    (2 * CACHE_TTL_MS) true None.

(** An outside world at time [now] where the network answers [body]. *)
Definition env_online (now : Z) (body : text) : Env :=
  mkEnv now (fun _ => Some body) now true true now true None.

(** ** The sections of a document, read from the end

    A second reading of the scan of [parseSections], used to reason about
    it: the lines are consumed from the last one; [sectionsFrom lines index]
    gives the text and the number of the lines that come before the first
    heading of [lines], and the sections of the headings of [lines], the
    first line having index [index]. *)
Fixpoint sectionsFrom (lines : list text) (index : Z)
    : text * nat * list DocSection.t :=
  match lines with
  | [] => ([], O, [])
  | line :: rest =>
      let '(pending, n, sections) := sectionsFrom rest (index + 1) in
      match headerMatch line with
      | Some (g1, g2) =>
          ([], O,
           DocSection.mk (trim g2) (Z.of_nat (length g1))
             (line ++ [nl] ++ pending) index (index + Z.of_nat n) :: sections)
      | None => (line ++ [nl] ++ pending, S n, sections)
      end
  end.

(** The lines that are left once the lines before the first heading are
    dropped. *)
Fixpoint fromFirstHeading (lines : list text) : list text :=
  match lines with
  | [] => []
  | line :: rest =>
      match headerMatch line with
      | Some _ => lines
      | None => fromFirstHeading rest
      end
  end.

(** The lines of a document from index [a] to index [b], both included,
    each followed by a newline. *)
Definition linesText (lines : list text) (a b : Z) : text :=
  concat (map (fun line => line ++ [nl]) (slice lines a (b + 1))).

Definition isHeading (line : text) : bool :=
  match headerMatch line with
  | Some _ => true
  | None => false
  end.

(** ** The documentation tool (commands/tool-registry.ts) *)

Definition undefinedText : text := lit "undefined".

(** [Object.keys(metadata).length]: the service builds its metadata
    objects with defined values only, so a key is present exactly when the
    field is defined. *)
Definition metadataKeys (m : Metadata.t) : nat :=
  length (option_list (Metadata.totalSections m))
  + length (option_list (Metadata.currentSection m))
  + length (option_list (Metadata.totalPages m))
  + length (option_list (Metadata.currentPage m))
  + length (option_list (Metadata.pageSize m)).

(** The text the handler of [vendure_get_docs] builds from a result. *)
Definition formatDocResponse (result : PaginationResult.t) : text :=
  let metadata := PaginationResult.metadata result in
  let num (o : option Z) : text :=
    match o with
    | Some n => numToString n
    | None => undefinedText
    end in
  if (0 <? metadataKeys metadata)%nat then
    PaginationResult.content result
    ++ [nl; nl] ++ lit "---" ++ [nl] ++ lit "**Pagination Info:**" ++ [nl]
    ++ (if truthyNum (Metadata.totalSections metadata)
        then lit "- Total sections: " ++ num (Metadata.totalSections metadata) ++ [nl]
        else [])
    ++ (if truthyText (Metadata.currentSection metadata)
        then lit "- Current section: "
             ++ default [] (Metadata.currentSection metadata) ++ [nl]
        else [])
    ++ (if truthyNum (Metadata.totalPages metadata)
        then lit "- Total pages: " ++ num (Metadata.totalPages metadata) ++ [nl]
        else [])
    ++ (if truthyNum (Metadata.currentPage metadata)
        then lit "- Current page: " ++ num (Metadata.currentPage metadata)
             ++ lit "/" ++ num (Metadata.totalPages metadata) ++ [nl]
        else [])
    ++ (if truthyNum (Metadata.pageSize metadata)
        then lit "- Page size: " ++ num (Metadata.pageSize metadata)
             ++ lit " lines" ++ [nl]
        else [])
  else PaginationResult.content result.

(** The handler registered by [registerDocTool]; its answer is the text of
    the single content item it returns. *)
Definition docToolHandler (env : Env) (type : DocType) (section : option text)
    (page pageSize : option Z) : IO text :=
  result ← getPaginatedDocs env type (Some (Options.mk section page pageSize));
  mret (formatDocResponse result).

(** The footer of a response, up to its first entry. *)
Definition paginationInfo : text :=
  [nl; nl] ++ lit "---" ++ [nl] ++ lit "**Pagination Info:**" ++ [nl].

(** The service after a restart of the process: the memory slots are
    empty, the cache directory is as it was. *)
Definition restart (w : World) : World := mkWorld None None (disk w).

(** The number of network requests in a trace. *)
Definition isFetch (e : Event) : bool :=
  match e with
  | HttpGet _ => true
  | _ => false
  end.

Definition fetchCount (trace : list Event) : nat :=
  length (List.filter isFetch trace).

(** A section key moved down by [k] lines. *)
Definition shiftKey (k : Z) (key : Z * Z * text) : Z * Z * text :=
  let '(start, level, title) := key in (start + k, level, title).

(** Two characters that are the same letter: equal, or an ASCII capital
    and its small letter.  Two texts are equal up to case when they have
    the same letters in the same places. *)
Definition isCapital (c : ascii) : bool :=
  ((65 <=? N_of_ascii c) && (N_of_ascii c <=? 90))%N.

Definition sameLetter (a b : ascii) : bool :=
  Ascii.eqb a b
  || (isCapital a && (N_of_ascii b =? N_of_ascii a + 32)%N)
  || (isCapital b && (N_of_ascii a =? N_of_ascii b + 32)%N).

Definition sameUpToCase (s t : text) : Prop :=
  Forall2 (fun a b => sameLetter a b = true) s t.

(** The 256 characters. *)
Definition allAscii : list ascii := map ascii_of_nat (seq 0 256).

(** * Properties *)

(** ** The embedding on small inputs *)

Example split_trailing_newline :
  split nl doc_AB = [lit "# A"; lit "x"; lit "## B"; lit "y"; []].
Proof. reflexivity. Qed.

Example split_empty : split nl [] = [[]].
Proof. reflexivity. Qed.

Example headerMatch_groups :
  headerMatch (lit "###  Core Concepts ") = Some (lit "###", lit "Core Concepts ").
Proof. reflexivity. Qed.

Example headerMatch_seven_hashes : headerMatch (lit "####### A") = None.
Proof. reflexivity. Qed.

Example headerMatch_no_space : headerMatch (lit "#A") = None.
Proof. reflexivity. Qed.

(** The white space backtracks by one character to leave the text group
    something to match; the title is then empty. *)
Example headerMatch_only_spaces : headerMatch (lit "#  ") = Some (lit "#", lit " ").
Proof. reflexivity. Qed.

Example parseSections_doc_AB :
  parseSections doc_AB
  = [DocSection.mk (lit "A") 1 (lit "# A" ++ [nl] ++ lit "x" ++ [nl]) 0 1;
     DocSection.mk (lit "B") 2 (lit "## B" ++ [nl] ++ lit "y" ++ [nl; nl]) 2 4].
Proof. reflexivity. Qed.

Example parseSections_no_heading :
  parseSections (lit "plain" ++ [nl] ++ lit "text") = [].
Proof. reflexivity. Qed.

Example toc_doc_AB :
  getTableOfContents doc_AB
  = PaginationResult.mk
      (tocHeader ++ lit "1. A" ++ [nl] ++ lit "  2. B" ++ [nl] ++ tocUsage)
      (Metadata.mk (Some 2) None None None None).
Proof. reflexivity. Qed.

Example section_not_found :
  getSection doc_AB (lit "zz")
  = PaginationResult.mk
      (lit "# Section Not Found" ++ [nl; nl]
         ++ lit "Could not find section matching: " ++ [dq] ++ lit "zz" ++ [dq]
         ++ [nl; nl] ++ lit "## Available sections:" ++ [nl]
         ++ lit "- A" ++ [nl] ++ lit "- B")
      (Metadata.mk (Some 2) None None None None).
Proof. reflexivity. Qed.

Example getPage_negative_page :
  getPage doc_AB (-1) 2 = invalidPage (-1) 3 2.
Proof. reflexivity. Qed.

(** With the network up, an empty world ends with the document in the slot
    and in the cache directory. *)
Example fetch_fills_both_caches :
  getDocumentContent (env_online 7 doc_AB) "llms.txt" llms world_empty
  = (doc_AB,
     mkWorld (Some (CachedContent.mk doc_AB 7)) None
       (<[cacheFile "llms.txt" := CachedContent.mk doc_AB 7]> ∅),
     [HttpGet "llms.txt"; WriteFile (cacheFile "llms.txt")]).
Proof. reflexivity. Qed.

(** With the network down and a fresh file in the cache directory, the
    file fills the slot. *)
Example disk_hit_fills_slot :
  getDocumentContent
    (mkEnv 5 (fun _ => None) 5 true true 5 true None) "llms.txt" llms
    world_disk_AB
  = (doc_AB,
     mkWorld (Some (CachedContent.mk doc_AB 0)) None (disk world_disk_AB),
     [HttpGet "llms.txt"; Warn; ReadFile (cacheFile "llms.txt")]).
Proof. reflexivity. Qed.

(** ** Lines: [split] and [join] *)

Lemma split_not_nil sep s : split sep s ≠ [].
Proof.
  destruct s as [|c s]; simpl; [done|].
  destruct (Ascii.eqb c sep); [done|]. by destruct (split sep s).
Qed.

Lemma join_cons sep x xs :
  xs ≠ [] → join sep (x :: xs) = x ++ sep ++ join sep xs.
Proof. by destruct xs. Qed.

Lemma join_split sep s : join [sep] (split sep s) = s.
Proof.
  induction s as [|c s IH]; simpl; [done|].
  destruct (Ascii.eqb_spec c sep) as [->|Hne].
  - rewrite join_cons by apply split_not_nil. simpl. by rewrite IH.
  - pose proof (split_not_nil sep s) as Hnil.
    destruct (split sep s) as [|h t]; [done|].
    destruct t as [|h' t]; simpl in *; by rewrite <- IH.
Qed.

Lemma join_app sep xs ys :
  xs ≠ [] → ys ≠ [] →
  join sep (xs ++ ys) = join sep xs ++ sep ++ join sep ys.
Proof.
  intros Hxs Hys. induction xs as [|x xs IH]; [done|].
  destruct xs as [|x' xs].
  - simpl. by destruct ys.
  - change ((x :: x' :: xs) ++ ys) with (x :: ((x' :: xs) ++ ys)).
    rewrite !join_cons by done. rewrite IH by done.
    by rewrite <- !app_assoc.
Qed.

(** Joining the joined chunks is joining all the lines, as long as no chunk
    is empty. *)
Lemma join_chunks sep (chunks : list (list text)) :
  Forall (fun c => c ≠ []) chunks →
  join sep (map (join sep) chunks) = join sep (concat chunks).
Proof.
  induction 1 as [|c chunks Hc Hall IH]; [done|].
  destruct chunks as [|c' chunks].
  - simpl. by rewrite app_nil_r.
  - change (concat (c :: c' :: chunks)) with (c ++ concat (c' :: chunks)).
    assert (concat (c' :: chunks) ≠ []) as Hne.
    { inversion Hall as [|? ? Hc' _]; subst. simpl. by destruct c'. }
    rewrite join_app by done. rewrite <- IH. done.
Qed.

Lemma concat_chunks {A} (xs : list A) (q n : nat) :
  concat (map (fun i => take q (drop (i * q) xs)) (seq 0 n)) = take (n * q) xs.
Proof.
  induction n as [|n IH]; [done|].
  rewrite seq_S, map_app, concat_app, IH. simpl. rewrite app_nil_r.
  rewrite take_take_drop. f_equal. lia.
Qed.

(** ** Page arithmetic *)

Lemma ceilDiv_bounds a b :
  0 < b → (ceilDiv a b - 1) * b < a ≤ ceilDiv a b * b.
Proof.
  intros Hb. unfold ceilDiv.
  pose proof (Z.div_mod (- a) b ltac:(lia)) as Hdm.
  pose proof (Z.mod_pos_bound (- a) b Hb) as Hr.
  nia.
Qed.

Lemma relIndex_nonneg len i :
  0 ≤ i → relIndex len i = Z.to_nat (Z.min i (Z.of_nat len)).
Proof. intros Hi. unfold relIndex. by rewrite (proj2 (Z.ltb_ge i 0)). Qed.

Lemma slice_page {A} (xs : list A) (i q : nat) :
  slice xs (Z.of_nat (i * q))
    (Z.min (Z.of_nat (i * q) + Z.of_nat q) (Z.of_nat (length xs)))
  = take q (drop (i * q) xs).
Proof.
  unfold slice. rewrite !relIndex_nonneg by lia.
  destruct (decide (i * q ≤ length xs)%nat) as [Hle|Hgt].
  - replace (Z.to_nat (Z.min (Z.of_nat (i * q)) (Z.of_nat (length xs))))
      with (i * q)%nat by lia.
    destruct (decide (i * q + q ≤ length xs)%nat) as [Hfull|Hlast].
    + f_equal. lia.
    + rewrite !take_ge; [done| |]; rewrite length_drop; lia.
  - rewrite !drop_ge by lia. by rewrite !take_nil.
Qed.

Lemma getPage_totalPages content page pageSize :
  Metadata.totalPages (PaginationResult.metadata (getPage content page pageSize))
  = Some (ceilDiv (Z.of_nat (length (split nl content))) pageSize).
Proof. unfold getPage. by destruct (_ || _). Qed.

Lemma getPage_valid content (i : nat) pageSize :
  1 ≤ pageSize →
  Z.of_nat i < ceilDiv (Z.of_nat (length (split nl content))) pageSize →
  PaginationResult.content (getPage content (Z.of_nat i + 1) pageSize)
  = join [nl] (take (Z.to_nat pageSize)
                 (drop (i * Z.to_nat pageSize) (split nl content))).
Proof.
  intros Hps Hi. unfold getPage.
  rewrite (proj2 (Z.ltb_ge _ 1)) by lia.
  rewrite Z.gtb_ltb, (proj2 (Z.ltb_ge _ _)) by lia.
  simpl. f_equal.
  rewrite <- (slice_page _ i (Z.to_nat pageSize)). f_equal; [lia|].
  f_equal; lia.
Qed.

(** ** Numeric pagination *)

(** C1.  For every document and every page size of at least one line, the
    pages 1 to [totalPages] (the count the paginator reports), joined in
    order with newlines, are the document. *)
Theorem pages_roundtrip (content : text) (pageSize totalPages : Z) :
  1 ≤ pageSize →
  Metadata.totalPages (PaginationResult.metadata (getPage content 1 pageSize))
    = Some totalPages →
  join [nl]
    (map (fun page => PaginationResult.content (getPage content page pageSize))
       (seqZ 1 totalPages))
  = content.
Proof.
  intros Hps Htp. rewrite getPage_totalPages in Htp.
  injection Htp as <-.
  set (lines := split nl content).
  set (q := Z.to_nat pageSize).
  pose proof (ceilDiv_bounds (Z.of_nat (length lines)) pageSize ltac:(lia))
    as [Hlo Hhi].
  set (tp := ceilDiv (Z.of_nat (length lines)) pageSize) in *.
  unfold seqZ.
  change (join [nl]
            ((fun page => PaginationResult.content (getPage content page pageSize))
               <$> ((fun i => Z.of_nat i + 1) <$> seq 0 (Z.to_nat tp))) = content).
  rewrite <- list_fmap_compose.
  rewrite (list_fmap_ext _ (join [nl] ∘ (fun i => take q (drop (i * q) lines)))).
  - rewrite list_fmap_compose.
    change (join [nl] (map (join [nl])
              (map (fun i => take q (drop (i * q) lines)) (seq 0 (Z.to_nat tp))))
            = content).
    rewrite join_chunks.
    + rewrite concat_chunks, take_ge by nia. apply join_split.
    + apply Forall_fmap, Forall_forall. intros i Hi%elem_of_seq. simpl.
      intros Hnil%(f_equal length). rewrite length_take, length_drop in Hnil.
      simpl in Hnil. nia.
  - intros k i Hk. apply lookup_seq in Hk as [-> Hlt]. simpl.
    apply getPage_valid; [done|]. fold lines tp. lia.
Qed.

Lemma pages_roundtrip_witness :
  1 ≤ 2 ∧
  Metadata.totalPages (PaginationResult.metadata (getPage doc_AB 1 2)) = Some 3 ∧
  join [nl]
    (map (fun page => PaginationResult.content (getPage doc_AB page 2)) (seqZ 1 3))
  = doc_AB.
Proof.
  split; [lia|]. split; [reflexivity|].
  apply (pages_roundtrip doc_AB 2 3); [lia | reflexivity].
Defined.

(** C2, as stated, fails: the document ends with a newline, so it splits
    into five lines and the paginator counts five pages, not four. *)
Lemma scenario_not_four_pages :
  Metadata.totalPages (PaginationResult.metadata (getPage doc_AB 1 1)) = Some 5 ∧
  ¬ (Metadata.totalPages (PaginationResult.metadata (getPage doc_AB 1 1)) = Some 4
     ∧ PaginationResult.content (getPage doc_AB 1 1) = lit "# A"
     ∧ PaginationResult.content (getPage doc_AB 2 1) = lit "x"
     ∧ PaginationResult.content (getPage doc_AB 3 1) = lit "## B"
     ∧ PaginationResult.content (getPage doc_AB 4 1) = lit "y").
Proof. split; [reflexivity|]. intros [Hfour _]. vm_compute in Hfour. discriminate. Qed.

(** C2, amended.  With one line per page the document has five pages: the
    four lines of the scenario and a fifth, empty page for the text after
    the final newline. *)
Theorem scenario_five_pages :
  getPage doc_AB 1 1 = validPage (lit "# A") 1 5 1 ∧
  getPage doc_AB 2 1 = validPage (lit "x") 2 5 1 ∧
  getPage doc_AB 3 1 = validPage (lit "## B") 3 5 1 ∧
  getPage doc_AB 4 1 = validPage (lit "y") 4 5 1 ∧
  getPage doc_AB 5 1 = validPage [] 5 5 1.
Proof. repeat split; reflexivity. Qed.

(** C3, as stated, fails: page 5 of that document is in range.  It is
    served as an (empty) page with [currentPage = 5], and the count in the
    metadata is 5. *)
Lemma scenario_page5_in_range :
  getPage doc_AB 5 1 = validPage [] 5 5 1 ∧
  PaginationResult.metadata (getPage doc_AB 5 1)
    ≠ Metadata.mk None None (Some 4) None (Some 1) ∧
  getPaginatedDocs env_quiet standardDocs
    (Some (Options.mk None (Some 5) (Some 1))) world_AB
  = (validPage [] 5 5 1, world_AB, []).
Proof. split; [reflexivity|]. split; [|reflexivity]. vm_compute. discriminate. Qed.

(** C3, amended.  On that document with one line per page, pages 0 and 6
    are out of range for the paginator: it answers with the invalid-page
    message and the metadata [{totalPages: 5, pageSize: 1}], without
    [currentPage].  Through [getPaginatedDocs] page 6 gets this answer,
    while page 0 counts as no page and gets the table of contents. *)
Theorem scenario_pages_out_of_range :
  getPage doc_AB 0 1 = invalidPage 0 5 1 ∧
  getPage doc_AB 6 1 = invalidPage 6 5 1 ∧
  getPaginatedDocs env_quiet standardDocs
    (Some (Options.mk None (Some 6) (Some 1))) world_AB
  = (invalidPage 6 5 1, world_AB, []) ∧
  getPaginatedDocs env_quiet standardDocs
    (Some (Options.mk None (Some 0) (Some 1))) world_AB
  = (getTableOfContents doc_AB, world_AB, []).
Proof. repeat split; reflexivity. Qed.

(** ** Section lookup on the scenario document *)

(** C4, as stated, fails: the section body carries one more newline than
    the claim says, for the empty last line of the document. *)
Lemma scenario_section_body_differs :
  PaginationResult.content (getSection doc_AB (lit "b"))
    ≠ lit "## B" ++ [nl] ++ lit "y" ++ [nl].
Proof. vm_compute. discriminate. Qed.

(** C4, amended.  The query ["b"] matches the section titled ["B"]; the
    body returned is ["## B\ny\n\n"], there are two sections, and
    [currentSection] is the title ["B"], not the query. *)
Theorem scenario_section_b :
  getSection doc_AB (lit "b")
  = PaginationResult.mk (lit "## B" ++ [nl] ++ lit "y" ++ [nl; nl])
      (Metadata.mk (Some 2) (Some (lit "B")) None None None).
Proof. reflexivity. Qed.

(** ** Dispatch *)

(** Runs a returned value and drops the empty trace it adds. *)
Ltac io_ret := unfold mret, IO_ret; cbv beta iota; rewrite ?app_nil_r.

Lemma getPaginatedDocs_run env type options w :
  getPaginatedDocs env type options w =
  let '(fullContent, w', trace) := resolveDoc env type w in
  (selectView fullContent (options ≫= Options.section)
     (options ≫= Options.page) (options ≫= Options.pageSize), w', trace).
Proof.
  unfold getPaginatedDocs. unfold mbind at 1. unfold IO_bind.
  destruct (resolveDoc env type w) as [[fullContent w'] trace]. by io_ret.
Qed.

Lemma toc_is_not_a_section_lookup content :
  getTableOfContents content ≠ getSection content [].
Proof.
  unfold getTableOfContents, getSection.
  destruct (parseSections content) as [|s rest]; simpl.
  - intros H. injection H as H _. vm_compute in H. discriminate.
  - unfold sectionMatches. simpl.
    destruct (toLowerCase (DocSection.title s)); simpl; intros H; discriminate.
Qed.

(** C6, as stated, fails: a [section] that is present but empty is not
    looked up.  The service answers with the table of contents, which is
    not what the section lookup returns for that query. *)
Lemma present_empty_section_not_looked_up :
  resolveDoc env_quiet standardDocs world_AB = (doc_AB, world_AB, []) ∧
  getPaginatedDocs env_quiet standardDocs
    (Some (Options.mk (Some []) None None)) world_AB
  = (getTableOfContents doc_AB, world_AB, []) ∧
  getTableOfContents doc_AB ≠ getSection doc_AB [].
Proof.
  split; [reflexivity|]. split; [reflexivity|]. apply toc_is_not_a_section_lookup.
Qed.

(** C6, amended.  [getPaginatedDocs] resolves the document of the requested
    type and dispatches on the truthiness of the options.  When [section]
    is absent or empty and [page] is absent or 0, the answer is the table
    of contents.  When [section] is a non-empty string, the answer is the
    section lookup, whatever [page] is.  Otherwise, when [page] is a number
    other than 0, the answer is that page, with [pageSize] replaced by 5000
    when it is absent or 0. *)
Theorem getPaginatedDocs_dispatch env type options w :
  ∃ fullContent w' trace r,
    resolveDoc env type w = (fullContent, w', trace) ∧
    getPaginatedDocs env type options w = (r, w', trace) ∧
    let section : option text := options ≫= Options.section in
    let page := options ≫= Options.page in
    let pageSize := options ≫= Options.pageSize in
    (section = None ∨ section = Some [] → page = None ∨ page = Some 0 →
       r = getTableOfContents fullContent) ∧
    (∀ s, section = Some s → s ≠ [] → r = getSection fullContent s) ∧
    (∀ p, section = None ∨ section = Some [] → page = Some p → p ≠ 0 →
       (pageSize = None ∨ pageSize = Some 0 → r = getPage fullContent p 5000) ∧
       (∀ n, pageSize = Some n → n ≠ 0 → r = getPage fullContent p n)).
Proof.
  rewrite getPaginatedDocs_run.
  destruct (resolveDoc env type w) as [[fullContent w'] trace].
  eexists fullContent, w', trace, _. split; [done|]. split; [done|].
  cbv zeta.
  generalize (options ≫= Options.section) (options ≫= Options.page)
    (options ≫= Options.pageSize).
  intros section page pageSize. unfold selectView. split; [|split].
  - by intros [-> | ->] [-> | ->].
  - intros s -> Hs. by destruct s.
  - intros p Hsec -> Hp%Z.eqb_neq.
    assert (truthyText section = false) as Hfalsy by (by destruct Hsec as [-> | ->]).
    rewrite Hfalsy. simpl. rewrite Hp. simpl. unfold orElse. split.
    + by intros [-> | ->].
    + intros n -> Hn%Z.eqb_neq. simpl. by rewrite Hn.
Qed.

(** C10.  With [section] set to the empty string and no [page], whatever
    the document, [getPaginatedDocs] answers with the table of contents of
    the resolved document, which is never the answer of a section lookup
    for the empty query. *)
Theorem empty_section_gives_toc env type pageSize w :
  getPaginatedDocs env type (Some (Options.mk (Some []) None pageSize)) w
  = (let '(fullContent, w', trace) := resolveDoc env type w in
     (getTableOfContents fullContent, w', trace)) ∧
  (∀ content, getTableOfContents content ≠ getSection content []).
Proof.
  split; [|apply toc_is_not_a_section_lookup].
  rewrite getPaginatedDocs_run. by destruct (resolveDoc env type w) as [[? ?] ?].
Qed.

(** ** The heading pattern *)

Section Greedy.
Context {R : Type} (p : ascii → bool).

Lemma greedy_sound lo hi s (k : text → text → option R) x :
  greedy p lo hi s k = Some x →
  ∃ m r, s = m ++ r ∧ run p lo hi m ∧ k m r = Some x.
Proof.
  revert lo hi k. induction s as [|c s IH]; intros lo hi k Hx.
  - destruct lo; [|done]. exists [], []. repeat split; simpl; [done|lia|lia|done].
  - assert (match lo with O => k [] (c :: s) | S _ => None end = Some x →
            ∃ m r, c :: s = m ++ r ∧ run p lo hi m ∧ k m r = Some x) as Hstop.
    { destruct lo; [|done]. intros Hk. exists [], (c :: s).
      repeat split; simpl; [done|lia|lia|done]. }
    simpl in Hx. destruct (p c) eqn:Hpc; [|by apply Hstop].
    destruct (bool_decide (hi = Some O)) eqn:Hhi; [by apply Hstop|].
    simpl in Hx. apply bool_decide_eq_false in Hhi.
    destruct (greedy p (Nat.pred lo) (Nat.pred <$> hi) s (fun m r => k (c :: m) r))
      as [y|] eqn:Hrec; [|by apply Hstop].
    injection Hx as ->.
    apply IH in Hrec as (m & r & -> & (Hall & Hlo & Hbound) & Hk).
    exists (c :: m), r. repeat split; [by constructor|simpl; lia| |done].
    intros h ->. simpl in *. specialize (Hbound _ eq_refl).
    destruct h; [done|]. simpl in Hbound. lia.
Qed.

Lemma greedy_complete lo hi s (k : text → text → option R) m r :
  s = m ++ r → run p lo hi m → is_Some (k m r) →
  is_Some (greedy p lo hi s k).
Proof.
  revert lo hi k m. induction s as [|c s IH]; intros lo hi k m Hs Hrun Hk.
  - symmetry in Hs. apply app_eq_nil in Hs as [-> ->].
    destruct Hrun as (_ & Hlo & _). simpl in *.
    by replace lo with O by lia.
  - destruct m as [|c' m].
    + simpl in Hs. subst r. destruct Hrun as (_ & Hlo & _). simpl in Hlo.
      replace lo with O by lia. simpl.
      destruct (p c && negb (bool_decide (hi = Some O))); [|done].
      by destruct (greedy p O (Nat.pred <$> hi) s (fun m r => k (c :: m) r)).
    + injection Hs as <- ->. destruct Hrun as (Hall & Hlo & Hbound).
      inversion Hall as [|? ? Hpc Hall']; subst. simpl. rewrite Hpc.
      rewrite bool_decide_eq_false_2; simpl.
      * destruct (IH (Nat.pred lo) (Nat.pred <$> hi)
                    (fun m r => k (c :: m) r) m eq_refl) as [y Hy]; [|done|].
        -- repeat split; [done|simpl in Hlo; lia|].
           intros h Hh. destruct hi as [h'|]; [|done].
           injection Hh as <-. specialize (Hbound _ eq_refl). simpl in Hbound. lia.
        -- by rewrite Hy.
      * intros ->. specialize (Hbound _ eq_refl). simpl in Hbound. lia.
Qed.
End Greedy.

Lemma all_hashes m :
  Forall (fun c => isHash c = true) m → m = replicate (length m) hash.
Proof.
  induction 1 as [|c m Hc _ IH]; [done|].
  apply Ascii.eqb_eq in Hc as ->. simpl. by rewrite <- IH.
Qed.

Lemma replicate_hashes k : Forall (fun c => isHash c = true) (replicate k hash).
Proof. induction k; by constructor. Qed.

Lemma headerMatch_sound line g1 g2 :
  headerMatch line = Some (g1, g2) →
  ∃ w, heading line (length g1) w g2.
Proof.
  unfold headerMatch. intros H.
  apply greedy_sound in H as (m1 & r1 & -> & (Hm1 & Hlo1 & Hhi1) & H).
  apply greedy_sound in H as (w & r2 & -> & (Hw & Hlow & _) & H).
  apply greedy_sound in H as (t & r3 & -> & (Ht & Hlot & _) & H).
  destruct r3; [|done]. injection H as <- <-.
  specialize (Hhi1 _ eq_refl). exists w. rewrite app_nil_r.
  split; [lia|]. split; [by rewrite <- all_hashes|].
  repeat split; try done.
  - intros ->. simpl in Hlow. lia.
  - intros ->. simpl in Hlot. lia.
Qed.

Lemma headerMatch_complete line k w t :
  heading line k w t → is_Some (headerMatch line).
Proof.
  intros (Hk & -> & Hw & Hspace & Ht & Hdot). unfold headerMatch.
  eapply greedy_complete; [done| |].
  { split; [apply replicate_hashes|]. rewrite length_replicate.
    split; [lia|]. intros h [= <-]. lia. }
  eapply greedy_complete; [done| |].
  { split; [done|]. split; [|done]. destruct w; [done|simpl; lia]. }
  eapply (greedy_complete _ _ _ _ _ t []); [by rewrite app_nil_r| |done].
  split; [done|]. split; [|done]. destruct t; [done|simpl; lia].
Qed.

Lemma trimStart_spaces w t :
  Forall (fun c => isSpace c = true) w → trimStart (w ++ t) = trimStart t.
Proof. induction 1 as [|c w Hc _ IH]; [done|]. simpl. by rewrite Hc. Qed.

(** A line has the shape of a heading in one way only, up to where the
    white space is cut. *)
Lemma heading_unique line k w t k' w' t' :
  heading line k w t → heading line k' w' t' → k = k' ∧ trim t = trim t'.
Proof.
  intros (_ & -> & Hw & Hspace & _ & _) (_ & Heq & Hw' & Hspace' & _ & _).
  assert (∀ (a b : nat) (u v x y : text),
            replicate a hash ++ u ++ x = replicate b hash ++ v ++ y →
            u ≠ [] → Forall (fun c => isSpace c = true) u → (a < b)%nat → False)
    as Hlt.
  { intros a b u v x y Hab Hu Hall Hlt.
    apply (f_equal (fun l => l !! a)) in Hab.
    rewrite lookup_app_r in Hab by (rewrite length_replicate; lia).
    rewrite length_replicate, Nat.sub_diag in Hab.
    rewrite (lookup_app_l (replicate b hash)) in Hab by (rewrite length_replicate; lia).
    rewrite lookup_replicate_2 in Hab by lia.
    destruct u as [|c u]; [done|]. simpl in Hab. injection Hab as ->.
    inversion Hall as [|? ? Hc _]. vm_compute in Hc. done. }
  assert (k = k') as <-.
  { destruct (Nat.lt_trichotomy k k') as [Hlt' | [-> | Hgt]]; [|done|].
    - exfalso. by eapply (Hlt k k' w w' t t').
    - exfalso. by eapply (Hlt k' k w' w t' t). }
  split; [done|]. apply app_inv_head in Heq.
  unfold trim. f_equal.
  rewrite <- (trimStart_spaces w t), <- (trimStart_spaces w' t') by done.
  by rewrite Heq.
Qed.

(** ** The section parser *)

Lemma stateKeys_parseLine index line st :
  stateKeys (parseLine index line st)
  = stateKeys st ++ match headerMatch line with
                    | Some (g1, g2) => [(index, Z.of_nat (length g1), trim g2)]
                    | None => []
                    end.
Proof.
  destruct st as [sections [cur|]]; unfold parseLine, stateKeys;
    destruct (headerMatch line) as [[g1 g2]|]; simpl;
    rewrite ?map_app, ?app_nil_r; simpl; by rewrite <- ?app_assoc.
Qed.

Lemma stateKeys_parseLoop lines index st :
  stateKeys (parseLoop lines index st) = stateKeys st ++ headingKeys lines index.
Proof.
  revert index st. induction lines as [|line rest IH]; intros index st; simpl.
  - by rewrite app_nil_r.
  - by rewrite IH, stateKeys_parseLine, <- app_assoc.
Qed.

(** The sections of a document are its heading lines, in order: each
    section starts at the index of a heading line, with the level and the
    title read off that line. *)
Lemma parseSections_keys content :
  map sectionKey (parseSections content) = headingKeys (split nl content) 0.
Proof.
  unfold parseSections.
  pose proof (stateKeys_parseLoop (split nl content) 0 ([], None)) as Hkeys.
  destruct (parseLoop (split nl content) 0 ([], None)) as [sections [cur|]];
    unfold stateKeys in Hkeys; simpl in Hkeys; rewrite <- Hkeys.
  - by rewrite !map_app.
  - by rewrite app_nil_r.
Qed.

Lemma elem_of_headingKeys lines index key :
  key ∈ headingKeys lines index ↔
  ∃ (j : nat) line g1 g2,
    lines !! j = Some line ∧ headerMatch line = Some (g1, g2)
    ∧ key = (index + Z.of_nat j, Z.of_nat (length g1), trim g2).
Proof.
  revert index. induction lines as [|line rest IH]; intros index; simpl.
  - split; [by intros ?%elem_of_nil|by intros (j & ? & ? & ? & ? & _)].
  - rewrite elem_of_app, IH. split.
    + intros [Hhere | (j & l & g1 & g2 & Hj & Hm & ->)].
      * destruct (headerMatch line) as [[g1 g2]|] eqn:Hm;
          [|by apply elem_of_nil in Hhere].
        apply list_elem_of_singleton in Hhere as ->.
        exists O, line, g1, g2. repeat split; [done|]. f_equal. f_equal. lia.
      * exists (S j), l, g1, g2. repeat split; [done..|]. f_equal. f_equal. lia.
    + intros ([|j] & l & g1 & g2 & Hj & Hm & ->); simpl in Hj.
      * injection Hj as ->. left. rewrite Hm.
        apply list_elem_of_singleton. f_equal. f_equal. lia.
      * right. exists j, l, g1, g2. repeat split; [done..|]. f_equal. f_equal. lia.
Qed.

(** C5, as stated, fails: a line that ends with a carriage return has one
    hash, a space and trailing text that is not empty, yet the pattern
    rejects it, since [.] does not match a line terminator and [$] is the
    end of the line.  The document made of that line has no section. *)
Lemma crlf_heading_not_opened :
  split nl (lit "# A" ++ [cr]) !! O = Some (lit "# A" ++ [cr]) ∧
  specHeading (lit "# A" ++ [cr]) ∧
  ¬ opensSection (lit "# A" ++ [cr]) 0.
Proof.
  split; [reflexivity|]. split.
  - exists 1%nat, (lit " "), (lit "A" ++ [cr]).
    repeat split; [lia|lia|done|by repeat constructor|done].
  - intros (s & Hs & _). vm_compute in Hs. by apply elem_of_nil in Hs.
Qed.

(** In the other direction the pattern takes any white space after the
    hashes: a tab opens a section as a space does. *)
Lemma tab_heading_opened :
  opensSection (lit "#" ++ [tab] ++ lit "A") 0 ∧
  ¬ specHeading (lit "#" ++ [tab] ++ lit "A").
Proof.
  split.
  - eexists. split; [vm_compute; apply list_elem_of_here|reflexivity].
  - intros (k & w & t & [Hk _] & Hline & Hw & Hspace & _).
    destruct k as [|[|k]]; [lia| |discriminate Hline].
    destruct w as [|c w]; [done|]. inversion Hspace as [|? ? -> _].
    discriminate Hline.
Qed.

(** C5, amended.  Line [i] of a document opens a section if and only if
    it is made of one to six hashes, then at least one white-space
    character, then text that is not empty and holds no line terminator.
    The section opened has the number of hashes as its level and the
    trimmed text as its title. *)
Theorem heading_opens_section (content : text) (i : nat) (line : text) :
  split nl content !! i = Some line →
  (opensSection content i ↔ ∃ k w t, heading line k w t) ∧
  (∀ s k w t,
     s ∈ parseSections content → DocSection.startLine s = Z.of_nat i →
     heading line k w t →
     DocSection.level s = Z.of_nat k ∧ DocSection.title s = trim t).
Proof.
  intros Hline.
  assert (∀ s, s ∈ parseSections content → DocSection.startLine s = Z.of_nat i →
            ∃ g1 g2, headerMatch line = Some (g1, g2)
                     ∧ DocSection.level s = Z.of_nat (length g1)
                     ∧ DocSection.title s = trim g2) as Hopened.
  { intros s Hs Hstart.
    apply (list_elem_of_fmap_2 sectionKey) in Hs.
    change (sectionKey s ∈ map sectionKey (parseSections content)) in Hs.
    rewrite parseSections_keys in Hs.
    apply elem_of_headingKeys in Hs as (j & l & g1 & g2 & Hj & Hm & Hkey).
    unfold sectionKey in Hkey. injection Hkey as Hstart' Hlevel Htitle.
    assert (j = i) as -> by lia. rewrite Hline in Hj. injection Hj as <-.
    by exists g1, g2. }
  split; [split|].
  - intros (s & Hs & Hstart).
    destruct (Hopened s Hs Hstart) as (g1 & g2 & Hm & _).
    apply headerMatch_sound in Hm as [w Hw]. by exists (length g1), w, g2.
  - intros (k & w & t & Hshape).
    destruct (headerMatch_complete _ _ _ _ Hshape) as [[g1 g2] Hm].
    assert ((0 + Z.of_nat i, Z.of_nat (length g1), trim g2)
              ∈ map sectionKey (parseSections content)) as Hin.
    { rewrite parseSections_keys. apply elem_of_headingKeys.
      by exists i, line, g1, g2. }
    change (map sectionKey (parseSections content))
      with (sectionKey <$> parseSections content) in Hin.
    apply list_elem_of_fmap in Hin as (s & Hkey & Hs).
    exists s. split; [done|]. unfold sectionKey in Hkey.
    injection Hkey as Hstart _ _. lia.
  - intros s k w t Hs Hstart Hshape.
    destruct (Hopened s Hs Hstart) as (g1 & g2 & Hm & -> & ->).
    apply headerMatch_sound in Hm as [w' Hshape'].
    destruct (heading_unique _ _ _ _ _ _ _ Hshape Hshape') as [-> ->]. done.
Qed.

Lemma heading_opens_section_witness :
  split nl doc_AB !! 2%nat = Some (lit "## B") ∧
  (opensSection doc_AB 2 ↔ ∃ k w t, heading (lit "## B") k w t) ∧
  (∀ s k w t,
     s ∈ parseSections doc_AB → DocSection.startLine s = Z.of_nat 2 →
     heading (lit "## B") k w t →
     DocSection.level s = Z.of_nat k ∧ DocSection.title s = trim t).
Proof.
  split; [reflexivity|].
  apply (heading_opens_section doc_AB 2 (lit "## B")). reflexivity.
Defined.

(** ** Section lookup *)

Lemma startsWith_prefix s p : startsWith s p = true ↔ ∃ r, s = p ++ r.
Proof.
  revert s. induction p as [|a p IH]; intros s.
  - split; [by exists s|by destruct s].
  - destruct s as [|b s]; simpl; [split; [done|by intros [r Hr]]|].
    rewrite andb_true_iff, IH. split.
    + intros [->%Ascii.eqb_eq [r ->]]. by exists r.
    + intros [r Hr]. injection Hr as -> ->. split; [apply Ascii.eqb_refl|by exists r].
Qed.

Lemma includes_infix s sub : includes s sub = true ↔ ∃ a b, s = a ++ sub ++ b.
Proof.
  induction s as [|c s IH].
  - change (includes [] sub) with (startsWith [] sub || false).
    rewrite orb_false_r, startsWith_prefix. split.
    + intros [r ->]. by exists [], r.
    + intros (a & b & Hab). symmetry in Hab.
      apply app_eq_nil in Hab as [-> Hab]. apply app_eq_nil in Hab as [-> ->].
      by exists [].
  - change (includes (c :: s) sub) with (startsWith (c :: s) sub || includes s sub).
    rewrite orb_true_iff, startsWith_prefix, IH. split.
    + intros [[r Hr] | (a & b & ->)].
      * exists [], r. done.
      * by exists (c :: a), b.
    + intros (a & b & Hab). destruct a as [|c' a].
      * left. by exists b.
      * right. injection Hab as -> ->. by exists a, b.
Qed.

Lemma includes_refl s : includes s s = true.
Proof. apply includes_infix. exists [], []. by rewrite app_nil_r. Qed.

Lemma includes_trans s t u :
  includes s t = true → includes t u = true → includes s u = true.
Proof.
  rewrite !includes_infix. intros (a & b & ->) (a' & b' & ->).
  exists (a ++ a'), (b' ++ b). by rewrite <- !app_assoc.
Qed.

(** A finer test that accepts the element found finds the same element. *)
Lemma find_refine {A} (p q : A → bool) (l : list A) (x : A) :
  List.find p l = Some x →
  q x = true →
  (∀ y, q y = true → p y = true) →
  List.find q l = Some x.
Proof.
  intros Hfind Hqx Hqp. induction l as [|a l IH]; [done|].
  simpl in *. destruct (p a) eqn:Hpa.
  - injection Hfind as ->. by rewrite Hqx.
  - destruct (q a) eqn:Hqa; [|by apply IH].
    apply Hqp in Hqa. congruence.
Qed.

(** C7.  When a query matches a section, the lookup of the title it
    returns gives the very same answer: same section body, same title,
    same count. *)
Theorem section_lookup_idempotent (content query title : text) :
  Metadata.currentSection (PaginationResult.metadata (getSection content query))
    = Some title →
  getSection content title = getSection content query.
Proof.
  unfold getSection.
  destruct (List.find (sectionMatches query) (parseSections content))
    as [section|] eqn:Hfind; [|done].
  simpl. intros [= <-].
  rewrite (find_refine _ (sectionMatches (DocSection.title section)) _ _ Hfind);
    [done| |].
  - apply includes_refl.
  - intros other Hother. apply find_some in Hfind as [_ Hmatch].
    unfold sectionMatches in *. by eapply includes_trans.
Qed.

Lemma section_lookup_idempotent_witness :
  Metadata.currentSection
    (PaginationResult.metadata (getSection doc_AB (lit "b"))) = Some (lit "B") ∧
  getSection doc_AB (lit "B") = getSection doc_AB (lit "b").
Proof.
  split; [reflexivity|].
  apply (section_lookup_idempotent doc_AB (lit "b") (lit "B")). reflexivity.
Defined.

(** ** The cache chain *)

Lemma isCacheValid_stale now cache :
  isCacheValid now cache = false ↔
  CACHE_TTL_MS ≤ now - CachedContent.timestamp cache.
Proof. unfold isCacheValid. apply Z.ltb_ge. Qed.

Lemma getDocumentContent_hit env filename cacheType w cache :
  slot cacheType w = Some cache →
  isCacheValid (nowAtCheck env) cache = true →
  getDocumentContent env filename cacheType w
  = (CachedContent.content cache, w, []).
Proof.
  intros Hslot Hvalid. unfold getDocumentContent, mbind, IO_bind, getWorld.
  by rewrite Hslot, Hvalid.
Qed.

Lemma getDocumentContent_miss env filename cacheType w :
  memoryFresh (nowAtCheck env) cacheType w = false →
  getDocumentContent env filename cacheType w = refresh env filename cacheType w.
Proof.
  unfold memoryFresh, getDocumentContent, mbind, IO_bind, getWorld.
  intros Hmiss.
  destruct (slot cacheType w) as [cache|]; [rewrite Hmiss|];
    by destruct (refresh env filename cacheType w) as [[? ?] ?].
Qed.

(** Unfolds the service down to the worlds and traces it computes. *)
Ltac io_run :=
  cbv [refresh fetchFromWeb saveToDiskCache loadFromDiskCache setSlot
       emit getWorld putWorld mbind IO_bind mret IO_ret];
  cbv beta iota zeta.

Lemma refresh_fetches_first env filename cacheType w :
  ∃ r w' trace,
    refresh env filename cacheType w = (r, w', HttpGet filename :: trace).
Proof.
  io_run.
  destruct (httpResponse env filename) as [body|].
  - destruct (diskWritable env), cacheType; by eexists _, _, _.
  - destruct (disk w !! cacheFile filename) as [c|]; [|by eexists _, _, _].
    destruct (diskReadable env); [|by eexists _, _, _].
    destruct (isCacheValid (nowAtLoad env) c); [by eexists _, _, _|].
    destruct (unlinkOk env); by eexists _, _, _.
Qed.

(** The world after a successful fetch: the slot holds the fetched text,
    stamped with the time of the store. *)
Lemma refresh_online env filename cacheType w body :
  httpResponse env filename = Some body →
  ∃ w' trace,
    refresh env filename cacheType w
    = (match cacheType with
       | full => enhanceWithProjectContext env body
       | llms => body
       end, w', HttpGet filename :: trace) ∧
    slot cacheType w'
    = Some (CachedContent.mk
              (match cacheType with
               | full => enhanceWithProjectContext env body
               | llms => body
               end) (nowAtStore env)).
Proof.
  intros Hbody. io_run. rewrite Hbody.
  destruct (diskWritable env), cacheType; by eexists _, _.
Qed.

(** C8, as stated, fails: a document can be resolved from the cache
    directory, and the memory slot then keeps the time stamp of the file,
    not the time of the resolution.  Here the file was written at time 0
    and the document is resolved from it at time 5; asked again one
    millisecond before [5 + CACHE_TTL_MS], the service does not serve it
    from memory and goes to the network. *)
Lemma disk_resolved_refetched_before_ttl :
  getDocumentContent (mkEnv 5 (fun _ => None) 5 true true 5 true None)
    "llms.txt" llms world_disk_AB
  = (doc_AB,
     mkWorld (Some (CachedContent.mk doc_AB 0)) None (disk world_disk_AB),
     [HttpGet "llms.txt"; Warn; ReadFile (cacheFile "llms.txt")]) ∧
  ∃ r w2 trace,
    getDocumentContent
      (mkEnv (5 + CACHE_TTL_MS - 1) (fun _ => None) (5 + CACHE_TTL_MS - 1)
         true true (5 + CACHE_TTL_MS - 1) true None)
      "llms.txt" llms
      (mkWorld (Some (CachedContent.mk doc_AB 0)) None (disk world_disk_AB))
    = (r, w2, HttpGet "llms.txt" :: trace).
Proof. split; [reflexivity|]. by eexists _, _, _. Qed.

(** C8, amended.  The time to live is 24 hours, counted from the time
    stamp kept with the entry.  A memory entry stamped [T] is stale at time
    [now] exactly when [now - T >= CACHE_TTL_MS]: asked again one
    millisecond before [T + CACHE_TTL_MS], the document is served from
    memory (same text, same world, no I/O at all); asked one millisecond
    after, the service goes to the network again.  A document fetched from
    the network is stamped with the time of the store; a document resolved
    from the cache directory keeps the time stamp of the file. *)
Theorem cache_freshness_by_stamp filename cacheType w1 (c : CachedContent.t) :
  slot cacheType w1 = Some c →
  CACHE_TTL_MS = 24 * 3600 * 1000
  ∧ (∀ now, memoryFresh now cacheType w1 = false
            ↔ CACHE_TTL_MS ≤ now - CachedContent.timestamp c)
  ∧ (∀ env', nowAtCheck env' = CachedContent.timestamp c + CACHE_TTL_MS - 1 →
       getDocumentContent env' filename cacheType w1
       = (CachedContent.content c, w1, []))
  ∧ (∀ env', nowAtCheck env' = CachedContent.timestamp c + CACHE_TTL_MS + 1 →
       ∃ r w2 trace',
         getDocumentContent env' filename cacheType w1
         = (r, w2, HttpGet filename :: trace'))
  ∧ (∀ env w body,
       memoryFresh (nowAtCheck env) cacheType w = false →
       httpResponse env filename = Some body →
       ∃ content w' trace,
         getDocumentContent env filename cacheType w
           = (content, w', HttpGet filename :: trace)
         ∧ slot cacheType w' = Some (CachedContent.mk content (nowAtStore env)))
  ∧ (∀ env w d,
       memoryFresh (nowAtCheck env) cacheType w = false →
       httpResponse env filename = None →
       disk w !! cacheFile filename = Some d →
       diskReadable env = true →
       isCacheValid (nowAtLoad env) d = true →
       ∃ w' trace,
         getDocumentContent env filename cacheType w
           = (CachedContent.content d, w', HttpGet filename :: trace)
         ∧ slot cacheType w' = Some d).
Proof.
  intros Hslot. split; [reflexivity|].
  assert (∀ now, memoryFresh now cacheType w1 = false
                 ↔ CACHE_TTL_MS ≤ now - CachedContent.timestamp c) as Hstale.
  { intros now. unfold memoryFresh. rewrite Hslot. apply isCacheValid_stale. }
  split; [done|]. split; [|split; [|split]].
  - intros env' Hnow.
    rewrite (getDocumentContent_hit env' filename cacheType w1 _ Hslot); [done|].
    unfold isCacheValid. apply Z.ltb_lt. lia.
  - intros env' Hnow. rewrite getDocumentContent_miss.
    + apply refresh_fetches_first.
    + apply Hstale. lia.
  - intros env w body Hmiss Hbody. rewrite getDocumentContent_miss by done.
    destruct (refresh_online env filename cacheType w body Hbody)
      as (w' & trace & -> & Hslot').
    by eexists _, w', trace.
  - intros env w d Hmiss Hnet Hfile Hread Hvalid.
    rewrite getDocumentContent_miss by done.
    io_run. rewrite Hnet, Hfile, Hread, Hvalid.
    destruct cacheType; by eexists _, _.
Qed.

Lemma cache_freshness_by_stamp_witness :
  CACHE_TTL_MS = 24 * 3600 * 1000
  ∧ (∀ now, memoryFresh now llms world_AB = false ↔ CACHE_TTL_MS ≤ now - 0)
  ∧ (∀ env', nowAtCheck env' = 0 + CACHE_TTL_MS - 1 →
       getDocumentContent env' "llms.txt" llms world_AB = (doc_AB, world_AB, []))
  ∧ (∀ env', nowAtCheck env' = 0 + CACHE_TTL_MS + 1 →
       ∃ r w2 trace',
         getDocumentContent env' "llms.txt" llms world_AB
         = (r, w2, HttpGet "llms.txt" :: trace'))
  ∧ (∀ env w body,
       memoryFresh (nowAtCheck env) llms w = false →
       httpResponse env "llms.txt" = Some body →
       ∃ content w' trace,
         getDocumentContent env "llms.txt" llms w
           = (content, w', HttpGet "llms.txt" :: trace)
         ∧ slot llms w' = Some (CachedContent.mk content (nowAtStore env)))
  ∧ (∀ env w d,
       memoryFresh (nowAtCheck env) llms w = false →
       httpResponse env "llms.txt" = None →
       disk w !! cacheFile "llms.txt" = Some d →
       diskReadable env = true →
       isCacheValid (nowAtLoad env) d = true →
       ∃ w' trace,
         getDocumentContent env "llms.txt" llms w
           = (CachedContent.content d, w', HttpGet "llms.txt" :: trace)
         ∧ slot llms w' = Some d).
Proof.
  apply (cache_freshness_by_stamp "llms.txt" llms world_AB
           (CachedContent.mk doc_AB 0)).
  reflexivity.
Defined.

(** C9, as stated, fails: with the network down and a stale file in the
    cache directory, resolution ends in the fallback text, yet the cache
    directory has changed, because loading a stale file deletes it. *)
Lemma stale_file_deleted_on_fallback :
  memoryFresh (nowAtCheck env_offline) llms world_disk_AB = false ∧
  httpResponse env_offline "llms.txt" = None ∧
  (∃ c, disk world_disk_AB !! cacheFile "llms.txt" = Some c
        ∧ isCacheValid (nowAtLoad env_offline) c = false) ∧
  ∃ w' trace,
    getDocumentContent env_offline "llms.txt" llms world_disk_AB
      = (getFallbackLlmsTxt, w', trace) ∧
    disk w' !! cacheFile "llms.txt" = None ∧
    w' ≠ world_disk_AB.
Proof.
  split; [reflexivity|]. split; [reflexivity|]. split.
  - exists (CachedContent.mk doc_AB 0). split; [|reflexivity].
    unfold world_disk_AB. simpl. apply lookup_singleton_eq.
  - eexists _, _. split; [reflexivity|]. simpl. split.
    + rewrite lookup_delete_eq. done.
    + intros Heq%(f_equal (fun w => disk w !! cacheFile "llms.txt")).
      simpl in Heq. rewrite lookup_delete_eq, lookup_singleton_eq in Heq. done.
Qed.

(** C9, amended.  When the memory slot does not answer, the network fetch
    fails and the cache directory has no file for the document, or the file
    cannot be read, or it is stale, resolution returns the static fallback
    text of the document, passed through [enhanceWithProjectContext] for
    the full kind (which prepends the project-context header when the
    project context is available).  Both memory slots are unchanged and
    nothing is written to the cache directory.  The cache directory is
    unchanged too, with one exception: a stale file of the requested
    document that could be read is deleted when the deletion succeeds, and
    the file is then gone. *)
Theorem fallback_frame env filename cacheType w :
  memoryFresh (nowAtCheck env) cacheType w = false →
  httpResponse env filename = None →
  (disk w !! cacheFile filename = None
   ∨ diskReadable env = false
   ∨ ∃ c, disk w !! cacheFile filename = Some c
          ∧ isCacheValid (nowAtLoad env) c = false) →
  ∃ w' trace,
    getDocumentContent env filename cacheType w
    = (match cacheType with
       | full => enhanceWithProjectContext env (getFallbackContent filename)
       | llms => getFallbackContent filename
       end, w', trace) ∧
    (∀ path, projectPath env = Some path →
       enhanceWithProjectContext env (getFallbackContent filename)
       = projectContextHeader path ++ getFallbackContent filename) ∧
    llmsTxtCache w' = llmsTxtCache w ∧
    llmsFullTxtCache w' = llmsFullTxtCache w ∧
    (∀ file, WriteFile file ∉ trace) ∧
    (∀ file, file ≠ cacheFile filename → disk w' !! file = disk w !! file) ∧
    (disk w' = disk w ∨ disk w' = delete (cacheFile filename) (disk w)) ∧
    (disk w !! cacheFile filename = None ∨ diskReadable env = false
     ∨ unlinkOk env = false → w' = w) ∧
    (∀ c, disk w !! cacheFile filename = Some c →
          diskReadable env = true →
          isCacheValid (nowAtLoad env) c = false →
          unlinkOk env = true →
          disk w' = delete (cacheFile filename) (disk w)
          ∧ disk w' !! cacheFile filename = None
          ∧ Unlink (cacheFile filename) ∈ trace).
Proof.
  intros Hmiss Hnet Hdisk.
  rewrite getDocumentContent_miss by done.
  assert (∀ path, projectPath env = Some path →
            enhanceWithProjectContext env (getFallbackContent filename)
            = projectContextHeader path ++ getFallbackContent filename) as Hheader.
  { intros path Hpath. unfold enhanceWithProjectContext. by rewrite Hpath. }
  assert (∀ (trace : list Event),
            Forall (fun e => match e with WriteFile _ => False | _ => True end) trace →
            ∀ file, WriteFile file ∉ trace) as Hnowrite.
  { intros trace Hall file Hin. rewrite Forall_forall in Hall. apply (Hall _ Hin). }
  io_run. rewrite Hnet.
  destruct w as [slot1 slot2 files]. simpl in *.
  destruct (files !! cacheFile filename) as [c|] eqn:Hfile.
  - destruct (diskReadable env) eqn:Hread.
    + destruct Hdisk as [Hnone | [Hfalse | (c' & Hc' & Hstale)]]; [done..|].
      injection Hc' as <-. rewrite Hstale.
      destruct (unlinkOk env) eqn:Hunlink.
      * eexists _, _. split; [done|]. simpl. split_and!; try done.
        -- apply Hnowrite. repeat constructor.
        -- intros file Hne. by rewrite lookup_delete_ne.
        -- by right.
        -- by intros [? | [? | ?]].
        -- intros c' _ _ _ _. split_and!; [done|apply lookup_delete_eq|].
           apply list_elem_of_In. simpl. tauto.
      * eexists _, _. split; [done|]. simpl. split_and!; try done.
        -- apply Hnowrite. repeat constructor.
        -- by left.
    + eexists _, _. split; [done|]. simpl. split_and!; try done.
      * apply Hnowrite. repeat constructor.
      * by left.
  - eexists _, _. split; [done|]. simpl. split_and!; try done.
    + apply Hnowrite. repeat constructor.
    + by left.
Qed.

Lemma fallback_frame_witness :
  ∃ w' trace,
    getDocumentContent env_offline "llms.txt" llms world_disk_AB
    = (getFallbackContent "llms.txt", w', trace) ∧
    (∀ path, projectPath env_offline = Some path →
       enhanceWithProjectContext env_offline (getFallbackContent "llms.txt")
       = projectContextHeader path ++ getFallbackContent "llms.txt") ∧
    llmsTxtCache w' = llmsTxtCache world_disk_AB ∧
    llmsFullTxtCache w' = llmsFullTxtCache world_disk_AB ∧
    (∀ file, WriteFile file ∉ trace) ∧
    (∀ file, file ≠ cacheFile "llms.txt" →
       disk w' !! file = disk world_disk_AB !! file) ∧
    (disk w' = disk world_disk_AB
     ∨ disk w' = delete (cacheFile "llms.txt") (disk world_disk_AB)) ∧
    (disk world_disk_AB !! cacheFile "llms.txt" = None
     ∨ diskReadable env_offline = false
     ∨ unlinkOk env_offline = false → w' = world_disk_AB) ∧
    (∀ c, disk world_disk_AB !! cacheFile "llms.txt" = Some c →
          diskReadable env_offline = true →
          isCacheValid (nowAtLoad env_offline) c = false →
          unlinkOk env_offline = true →
          disk w' = delete (cacheFile "llms.txt") (disk world_disk_AB)
          ∧ disk w' !! cacheFile "llms.txt" = None
          ∧ Unlink (cacheFile "llms.txt") ∈ trace).
Proof.
  apply (fallback_frame env_offline "llms.txt" llms world_disk_AB);
    [reflexivity | reflexivity |].
  right. right. exists (CachedContent.mk doc_AB 0). split; [|reflexivity].
  apply lookup_singleton_eq.
Defined.

(** * Further properties of the service *)

(** ** The scan of [parseSections] *)

Lemma parseLoop_sectionsFrom lines index sections cur :
  let '(pending, n, later) := sectionsFrom lines index in
  let '(sections', cur') := parseLoop lines index (sections, cur) in
  match cur' with
  | Some c =>
      sections' ++ [DocSection.setEndLine c (index + Z.of_nat (length lines) - 1)]
  | None => sections'
  end
  = sections
    ++ match cur with
       | Some c =>
           [DocSection.mk (DocSection.title c) (DocSection.level c)
              (DocSection.content c ++ pending) (DocSection.startLine c)
              (index + Z.of_nat n - 1)]
       | None => []
       end
    ++ later.
Proof.
  revert index sections cur.
  induction lines as [|line rest IH]; intros index sections cur.
  - simpl. destruct cur as [c|]; simpl; by rewrite ?app_nil_r.
  - cbn [sectionsFrom parseLoop].
    specialize (IH (index + 1)).
    destruct (sectionsFrom rest (index + 1)) as [[pending n] later].
    unfold parseLine. destruct (headerMatch line) as [[g1 g2]|].
    + match goal with
      | |- context [parseLoop rest (index + 1) (?a, ?b)] => specialize (IH a b)
      end.
      destruct (parseLoop rest (index + 1) _) as [sections' cur'].
      replace (index + Z.of_nat (length (line :: rest)) - 1)
        with (index + 1 + Z.of_nat (length rest) - 1) by (simpl; lia).
      rewrite IH. simpl.
      replace (index + 1 + Z.of_nat n - 1) with (index + Z.of_nat n) by lia.
      destruct cur as [c|]; simpl.
      * rewrite <- !app_assoc. simpl. rewrite app_nil_r.
        unfold DocSection.setEndLine.
        by replace (index + Z.of_nat 0 - 1) with (index - 1) by lia.
      * by rewrite <- ?app_assoc.
    + destruct cur as [c|].
      * specialize (IH sections (Some (DocSection.appendContent c (line ++ [nl])))).
        destruct (parseLoop rest (index + 1) _) as [sections' cur'].
        replace (index + Z.of_nat (length (line :: rest)) - 1)
          with (index + 1 + Z.of_nat (length rest) - 1) by (simpl; lia).
        rewrite IH. simpl. rewrite <- !app_assoc. simpl.
        by replace (index + 1 + Z.of_nat n - 1) with (index + Z.of_nat (S n) - 1) by lia.
      * specialize (IH sections None).
        destruct (parseLoop rest (index + 1) _) as [sections' cur'].
        replace (index + Z.of_nat (length (line :: rest)) - 1)
          with (index + 1 + Z.of_nat (length rest) - 1) by (simpl; lia).
        by rewrite IH.
Qed.

Lemma parseSections_sectionsFrom content :
  parseSections content = (sectionsFrom (split nl content) 0).2.
Proof.
  unfold parseSections.
  pose proof (parseLoop_sectionsFrom (split nl content) 0 [] None) as H.
  destruct (sectionsFrom (split nl content) 0) as [[pending n] later].
  destruct (parseLoop (split nl content) 0 ([], None)) as [sections cur].
  simpl in *. by destruct cur.
Qed.

Lemma isHeading_false line : isHeading line = false ↔ headerMatch line = None.
Proof. unfold isHeading. by destruct (headerMatch line). Qed.

(** What [sectionsFrom] says of the lines before the first heading. *)
Lemma sectionsFrom_pending lines index :
  let '(pending, n, sections) := sectionsFrom lines index in
  (n ≤ length lines)%nat
  ∧ pending = concat (map (fun line => line ++ [nl]) (take n lines))
  ∧ Forall (fun line => isHeading line = false) (take n lines)
  ∧ fromFirstHeading lines = drop n lines
  ∧ (sections = [] → n = length lines)
  ∧ (∀ s, head sections = Some s → DocSection.startLine s = index + Z.of_nat n)
  ∧ length sections = length (List.filter isHeading lines)
  ∧ concat (map DocSection.content sections)
    = concat (map (fun line => line ++ [nl]) (drop n lines)).
Proof.
  revert index. induction lines as [|line rest IH]; intros index.
  - simpl. repeat split; try done.
  - cbn [sectionsFrom fromFirstHeading List.filter]. specialize (IH (index + 1)).
    destruct (sectionsFrom rest (index + 1)) as [[pending n] sections].
    destruct IH as (Hn & Hpending & Hplain & Hfrom & Hnil & Hhead & Hcount & Hconcat).
    unfold isHeading at 2. destruct (headerMatch line) as [[g1 g2]|] eqn:Hm.
    + repeat split; try done.
      * simpl. lia.
      * intros s [= <-]. simpl. lia.
      * simpl. by rewrite Hcount.
      * simpl. rewrite Hconcat, Hpending, <- !app_assoc. simpl. do 2 f_equal.
        rewrite <- concat_app, <- map_app. by rewrite take_drop.
    + repeat split; try done.
      * simpl. lia.
      * simpl. rewrite <- app_assoc. simpl. by rewrite Hpending.
      * simpl. constructor; [|done]. by apply isHeading_false.
      * intros ->. simpl. by rewrite Hnil.
      * intros s Hs. rewrite (Hhead s Hs). lia.
Qed.

(** What [sectionsFrom] says of each section: where it starts and ends in
    [lines], and that its text is those lines. *)
Lemma sectionsFrom_sections lines index s :
  s ∈ (sectionsFrom lines index).2 →
  ∃ a b : nat,
    DocSection.startLine s = index + Z.of_nat a
    ∧ DocSection.endLine s = index + Z.of_nat b
    ∧ (a ≤ b < length lines)%nat
    ∧ DocSection.content s
      = concat (map (fun line => line ++ [nl]) (take (S b - a) (drop a lines)))
    ∧ (∃ line, lines !! a = Some line ∧ isHeading line = true)
    ∧ Forall (fun line => isHeading line = false) (take (b - a) (drop (S a) lines)).
Proof.
  revert index. induction lines as [|line rest IH]; intros index.
  - by intros ?%elem_of_nil.
  - cbn [sectionsFrom]. specialize (IH (index + 1)).
    pose proof (sectionsFrom_pending rest (index + 1)) as Hpend.
    destruct (sectionsFrom rest (index + 1)) as [[pending n] sections].
    destruct Hpend as (Hn & Hpending & Hplain & _).
    assert (s ∈ sections →
            ∃ a b : nat,
              DocSection.startLine s = index + Z.of_nat a
              ∧ DocSection.endLine s = index + Z.of_nat b
              ∧ (a ≤ b < length (line :: rest))%nat
              ∧ DocSection.content s
                = concat (map (fun line => line ++ [nl])
                            (take (S b - a) (drop a (line :: rest))))
              ∧ (∃ l, (line :: rest) !! a = Some l ∧ isHeading l = true)
              ∧ Forall (fun l => isHeading l = false)
                  (take (b - a) (drop (S a) (line :: rest)))) as Hlater.
    { intros Hs. destruct (IH Hs) as (a & b & Ha & Hb & Hab & Hc & Hh & Hp).
      exists (S a), (S b). simpl. repeat split; try done; lia. }
    destruct (headerMatch line) as [[g1 g2]|] eqn:Hm; simpl; [|done].
    intros [-> | Hs]%elem_of_cons; [|by apply Hlater].
    exists O, n. simpl. repeat split; try lia.
    + rewrite <- app_assoc. simpl. by rewrite Hpending.
    + exists line. split; [done|]. unfold isHeading. by rewrite Hm.
    + by rewrite Nat.sub_0_r.
Qed.

(** The sections follow one another without a gap, and the last one ends
    with the last line. *)
Lemma sectionsFrom_chain lines index :
  let sections := (sectionsFrom lines index).2 in
  (∀ (i : nat) s s',
     sections !! i = Some s → sections !! S i = Some s' →
     DocSection.startLine s' = DocSection.endLine s + 1)
  ∧ (∀ s, last sections = Some s →
          DocSection.endLine s = index + Z.of_nat (length lines) - 1).
Proof.
  revert index. induction lines as [|line rest IH]; intros index.
  - simpl. split; [by intros i s s' ?|done].
  - cbn [sectionsFrom]. specialize (IH (index + 1)).
    pose proof (sectionsFrom_pending rest (index + 1)) as Hpend.
    destruct (sectionsFrom rest (index + 1)) as [[pending n] sections].
    destruct Hpend as (_ & _ & _ & _ & Hnil & Hhead & _).
    destruct IH as [Hchain Hlast]. simpl in Hchain, Hlast.
    destruct (headerMatch line) as [[g1 g2]|]; simpl.
    + split.
      * intros [|i] s s' Hs Hs'; simpl in Hs, Hs'.
        -- injection Hs as <-. simpl. rewrite (Hhead s'); [lia|].
           by destruct sections.
        -- by eapply Hchain.
      * intros s Hs. destruct sections as [|s1 rest1].
        -- injection Hs as <-. simpl. rewrite Hnil by done. lia.
        -- rewrite last_cons_cons in Hs. rewrite (Hlast s Hs). lia.
    + split; [done|]. intros s Hs. rewrite (Hlast s Hs). lia.
Qed.

Lemma slice_nat {A} (xs : list A) (a b : nat) :
  slice xs (Z.of_nat a) (Z.of_nat b) = take (b - a) (drop a xs).
Proof.
  unfold slice. rewrite !relIndex_nonneg by lia.
  destruct (decide (a ≤ length xs)%nat) as [Ha|Ha].
  - replace (Z.to_nat (Z.min (Z.of_nat a) (Z.of_nat (length xs)))) with a by lia.
    destruct (decide (b ≤ length xs)%nat) as [Hb|Hb].
    + f_equal. lia.
    + rewrite !take_ge; [done| |]; rewrite length_drop; lia.
  - rewrite !drop_ge by lia. by rewrite !take_nil.
Qed.

Lemma parseSections_length content :
  length (parseSections content)
  = length (List.filter isHeading (split nl content)).
Proof.
  rewrite parseSections_sectionsFrom.
  pose proof (sectionsFrom_pending (split nl content) 0) as H.
  destruct (sectionsFrom (split nl content) 0) as [[pending n] sections].
  by destruct H as (_ & _ & _ & _ & _ & _ & Hcount & _).
Qed.

(** X1.  A document has as many sections as it has heading lines, and the
    table of contents reports that number. *)
Theorem sections_count (content : text) :
  length (parseSections content)
    = length (List.filter isHeading (split nl content)) ∧
  Metadata.totalSections (PaginationResult.metadata (getTableOfContents content))
    = Some (Z.of_nat (length (List.filter isHeading (split nl content)))).
Proof.
  split; [apply parseSections_length|].
  unfold getTableOfContents. simpl. by rewrite parseSections_length.
Qed.

(** X2.  A section covers the lines from its [startLine] to its [endLine],
    which are lines of the document: its text is these lines, each followed
    by a newline; the first of them is a heading and none of the others
    is. *)
Theorem section_text_is_its_lines (content : text) (s : DocSection.t) :
  s ∈ parseSections content →
  let lines := split nl content in
  0 ≤ DocSection.startLine s ≤ DocSection.endLine s
  ∧ DocSection.endLine s < Z.of_nat (length lines)
  ∧ DocSection.content s
    = linesText lines (DocSection.startLine s) (DocSection.endLine s)
  ∧ (∃ line, lines !! Z.to_nat (DocSection.startLine s) = Some line
             ∧ isHeading line = true)
  ∧ (∀ j line, DocSection.startLine s < j ≤ DocSection.endLine s →
               lines !! Z.to_nat j = Some line → isHeading line = false).
Proof.
  rewrite parseSections_sectionsFrom. intros Hs lines.
  apply sectionsFrom_sections in Hs
    as (a & b & Ha & Hb & Hab & Hc & Hh & Hp).
  fold lines in Hab, Hc, Hh, Hp. rewrite Ha, Hb.
  split; [lia|]. split; [lia|]. split; [|split].
  - unfold linesText.
    replace (0 + Z.of_nat a) with (Z.of_nat a) by lia.
    replace (0 + Z.of_nat b + 1) with (Z.of_nat (S b)) by lia.
    by rewrite slice_nat.
  - by replace (Z.to_nat (0 + Z.of_nat a)) with a by lia.
  - intros j line Hj Hline. rewrite Forall_forall in Hp. apply Hp.
    apply list_elem_of_lookup. exists (Z.to_nat j - S a)%nat.
    rewrite lookup_take_lt by lia. rewrite lookup_drop.
    by replace (S a + (Z.to_nat j - S a))%nat with (Z.to_nat j) by lia.
Qed.

Lemma section_text_is_its_lines_witness :
  let s := DocSection.mk (lit "A") 1 (lit "# A" ++ [nl] ++ lit "x" ++ [nl]) 0 1 in
  let lines := split nl doc_AB in
  0 ≤ DocSection.startLine s ≤ DocSection.endLine s
  ∧ DocSection.endLine s < Z.of_nat (length lines)
  ∧ DocSection.content s
    = linesText lines (DocSection.startLine s) (DocSection.endLine s)
  ∧ (∃ line, lines !! Z.to_nat (DocSection.startLine s) = Some line
             ∧ isHeading line = true)
  ∧ (∀ j line, DocSection.startLine s < j ≤ DocSection.endLine s →
               lines !! Z.to_nat j = Some line → isHeading line = false).
Proof.
  apply (section_text_is_its_lines doc_AB). apply list_elem_of_here.
Defined.

(** X3.  The sections tile the document from the first heading to its last
    line: each section starts on the line after the end of the one before,
    and the last section ends on the last line. *)
Theorem sections_tile (content : text) :
  let sections := parseSections content in
  (∀ (i : nat) s s',
     sections !! i = Some s → sections !! S i = Some s' →
     DocSection.startLine s' = DocSection.endLine s + 1)
  ∧ (∀ s, last sections = Some s →
          DocSection.endLine s = Z.of_nat (length (split nl content)) - 1).
Proof.
  cbv zeta. rewrite parseSections_sectionsFrom.
  apply (sectionsFrom_chain (split nl content) 0).
Qed.

Lemma concat_lines_join (lines : list text) :
  lines ≠ [] →
  concat (map (fun line => line ++ [nl]) lines) = join [nl] lines ++ [nl].
Proof.
  induction lines as [|line rest IH]; [done|]. intros _.
  destruct rest as [|line' rest]; simpl; [by rewrite app_nil_r|].
  simpl in IH. rewrite IH by done. by rewrite <- !app_assoc.
Qed.

Lemma parseSections_concat content :
  concat (map DocSection.content (parseSections content))
  = concat (map (fun line => line ++ [nl])
              (fromFirstHeading (split nl content))).
Proof.
  rewrite parseSections_sectionsFrom.
  pose proof (sectionsFrom_pending (split nl content) 0) as H.
  destruct (sectionsFrom (split nl content) 0) as [[pending n] sections].
  destruct H as (_ & _ & _ & -> & _ & _ & _ & Hconcat). done.
Qed.

(** X4.  Nothing is lost after the first heading: the texts of the
    sections, put end to end, are the lines of the document from its first
    heading on, each followed by a newline.  The lines before the first
    heading are in no section. *)
Theorem section_texts_concat (content : text) :
  concat (map DocSection.content (parseSections content))
  = concat (map (fun line => line ++ [nl])
              (fromFirstHeading (split nl content))).
Proof. apply parseSections_concat. Qed.

(** X5.  When the first line of a document is a heading, the texts of its
    sections put end to end are the document followed by one newline. *)
Theorem heading_first_roundtrip (content line : text) :
  head (split nl content) = Some line →
  isHeading line = true →
  concat (map DocSection.content (parseSections content)) = content ++ [nl].
Proof.
  intros Hhead Hheading. rewrite parseSections_concat.
  pose proof (split_not_nil nl content) as Hnil.
  destruct (split nl content) as [|first rest] eqn:Hsplit; [done|].
  injection Hhead as ->. unfold isHeading in Hheading. simpl.
  destruct (headerMatch line); [|done].
  change (concat (map (fun l => l ++ [nl]) (line :: rest))
          = content ++ [nl]).
  rewrite concat_lines_join by done. by rewrite <- Hsplit, join_split.
Qed.

Lemma heading_first_roundtrip_witness :
  concat (map DocSection.content (parseSections doc_AB)) = doc_AB ++ [nl].
Proof.
  apply (heading_first_roundtrip doc_AB (lit "# A")); reflexivity.
Defined.

(** ** Levels and titles *)

Lemma trimStart_suffix s : ∃ w, s = w ++ trimStart s.
Proof.
  induction s as [|c s [w IH]]; [by exists []|]. simpl.
  destruct (isSpace c); [|by exists []]. exists (c :: w). simpl. by rewrite <- IH.
Qed.

Lemma trimStart_head s c : head (trimStart s) = Some c → isSpace c = false.
Proof.
  induction s as [|a s IH]; [done|]. simpl.
  destruct (isSpace a) eqn:Ha; [done|]. by intros [= <-].
Qed.

Lemma trimEnd_prefix s : ∃ w, s = trimEnd s ++ w.
Proof.
  unfold trimEnd. destruct (trimStart_suffix (rev s)) as [w Hw].
  exists (rev w). by rewrite <- rev_app_distr, <- Hw, rev_involutive.
Qed.

Lemma last_rev_head {A} (l : list A) : last (rev l) = head l.
Proof. destruct l as [|a l]; [done|]. simpl. apply last_snoc. Qed.

Lemma trimEnd_last s c : last (trimEnd s) = Some c → isSpace c = false.
Proof.
  unfold trimEnd. rewrite last_rev_head. apply trimStart_head.
Qed.

(** [trim] leaves a piece of the text, with no white space at either end. *)
Lemma trim_spec s :
  (∃ a b, s = a ++ trim s ++ b)
  ∧ (∀ c, head (trim s) = Some c → isSpace c = false)
  ∧ (∀ c, last (trim s) = Some c → isSpace c = false).
Proof.
  unfold trim. destruct (trimStart_suffix s) as [a Ha].
  destruct (trimEnd_prefix (trimStart s)) as [b Hb]. split; [|split].
  - exists a, b. by rewrite <- Hb.
  - intros c Hc. apply (trimStart_head s).
    rewrite Hb. by destruct (trimEnd (trimStart s)).
  - apply trimEnd_last.
Qed.

(** X6.  Every section has a level from 1 to 6.  Its title is on one line
    (it holds no line terminator) and has no white space at either end. *)
Theorem section_level_and_title (content : text) (s : DocSection.t) :
  s ∈ parseSections content →
  1 ≤ DocSection.level s ≤ 6
  ∧ Forall (fun c => isDot c = true) (DocSection.title s)
  ∧ (∀ c, head (DocSection.title s) = Some c → isSpace c = false)
  ∧ (∀ c, last (DocSection.title s) = Some c → isSpace c = false).
Proof.
  intros Hs. apply (list_elem_of_fmap_2 sectionKey) in Hs.
  change (sectionKey s ∈ map sectionKey (parseSections content)) in Hs.
  rewrite parseSections_keys in Hs.
  apply elem_of_headingKeys in Hs as (j & line & g1 & g2 & _ & Hm & Hkey).
  unfold sectionKey in Hkey. injection Hkey as _ -> ->.
  apply headerMatch_sound in Hm as (w & Hk & _ & _ & _ & _ & Hdot).
  destruct (trim_spec g2) as ((a & b & Hab) & Hhead & Hlast).
  split; [lia|]. split; [|done].
  rewrite Hab in Hdot. apply Forall_app in Hdot as [_ Hdot].
  by apply Forall_app in Hdot as [Hdot _].
Qed.

Lemma section_level_and_title_witness :
  let s := DocSection.mk (lit "A") 1 (lit "# A" ++ [nl] ++ lit "x" ++ [nl]) 0 1 in
  1 ≤ DocSection.level s ≤ 6
  ∧ Forall (fun c => isDot c = true) (DocSection.title s)
  ∧ (∀ c, head (DocSection.title s) = Some c → isSpace c = false)
  ∧ (∀ c, last (DocSection.title s) = Some c → isSpace c = false).
Proof.
  apply (section_level_and_title doc_AB). apply list_elem_of_here.
Defined.

(** ** Documents without a heading *)

Lemma filter_isHeading_nil lines :
  Forall (fun line => headerMatch line = None) lines →
  List.filter isHeading lines = [].
Proof.
  induction 1 as [|line rest Hline _ IH]; [done|].
  simpl. unfold isHeading at 1. by rewrite Hline.
Qed.

(** X7.  A document none of whose lines is a heading has no section: its
    table of contents is the fixed frame with no entry and reports
    [totalSections = 0], and every section lookup answers not-found with an
    empty list of titles. *)
Theorem no_heading_no_section (content : text) :
  Forall (fun line => headerMatch line = None) (split nl content) →
  parseSections content = []
  ∧ getTableOfContents content
    = PaginationResult.mk (tocHeader ++ tocUsage)
        (Metadata.mk (Some 0) None None None None)
  ∧ ∀ query,
      getSection content query
      = PaginationResult.mk
          (lit "# Section Not Found" ++ [nl; nl]
             ++ lit "Could not find section matching: " ++ [dq] ++ query ++ [dq]
             ++ [nl; nl] ++ lit "## Available sections:" ++ [nl] ++ lit "- ")
          (Metadata.mk (Some 0) None None None None).
Proof.
  intros Hplain.
  assert (parseSections content = []) as Hnil.
  { apply length_zero_iff_nil.
    rewrite parseSections_length.
    by rewrite filter_isHeading_nil. }
  split; [done|]. unfold getTableOfContents, getSection. rewrite Hnil.
  split; [done|]. intros query. simpl. by rewrite ?app_nil_r.
Qed.

Lemma no_heading_no_section_witness :
  parseSections (lit "plain" ++ [nl] ++ lit "#text") = []
  ∧ getTableOfContents (lit "plain" ++ [nl] ++ lit "#text")
    = PaginationResult.mk (tocHeader ++ tocUsage)
        (Metadata.mk (Some 0) None None None None)
  ∧ ∀ query,
      getSection (lit "plain" ++ [nl] ++ lit "#text") query
      = PaginationResult.mk
          (lit "# Section Not Found" ++ [nl; nl]
             ++ lit "Could not find section matching: " ++ [dq] ++ query ++ [dq]
             ++ [nl; nl] ++ lit "## Available sections:" ++ [nl] ++ lit "- ")
          (Metadata.mk (Some 0) None None None None).
Proof.
  apply (no_heading_no_section (lit "plain" ++ [nl] ++ lit "#text")).
  repeat constructor.
Defined.

(** ** Section lookup *)

Lemma find_none_iff {A} (p : A → bool) (l : list A) :
  List.find p l = None ↔ Forall (fun x => p x = false) l.
Proof.
  induction l as [|a l IH]; simpl; [by split; [constructor|]|].
  destruct (p a) eqn:Ha.
  - split; [done|]. intros H. inversion H; congruence.
  - rewrite IH. split; [by constructor|]. by intros H; inversion H.
Qed.

Lemma find_first {A} (p : A → bool) (pre post : list A) (x : A) :
  Forall (fun y => p y = false) pre → p x = true →
  List.find p (pre ++ x :: post) = Some x.
Proof.
  induction 1 as [|a pre Ha _ IH]; intros Hx; simpl.
  - by rewrite Hx.
  - rewrite Ha. by apply IH.
Qed.

(** X8.  A section lookup always reports the number of sections.  It
    answers not-found (no [currentSection]) exactly when no title contains
    the query, both lower-cased.  Otherwise it returns the first section,
    in document order, whose title does: its text and its title. *)
Theorem section_lookup_outcome (content query : text) :
  let sections := parseSections content in
  let result := getSection content query in
  Metadata.totalSections (PaginationResult.metadata result)
    = Some (Z.of_nat (length sections))
  ∧ (Metadata.currentSection (PaginationResult.metadata result) = None
     ↔ Forall (fun s => includes (toLowerCase (DocSection.title s))
                          (toLowerCase query) = false) sections)
  ∧ (∀ pre s post,
       sections = pre ++ s :: post →
       Forall (fun s' => includes (toLowerCase (DocSection.title s'))
                           (toLowerCase query) = false) pre →
       includes (toLowerCase (DocSection.title s)) (toLowerCase query) = true →
       result
       = PaginationResult.mk (DocSection.content s)
           (Metadata.mk (Some (Z.of_nat (length sections)))
              (Some (DocSection.title s)) None None None)).
Proof.
  cbv zeta. unfold getSection. split; [|split].
  - by destruct (List.find _ _).
  - rewrite <- (find_none_iff (sectionMatches query)).
    by destruct (List.find _ _).
  - intros pre s post Hsplit Hpre Hs.
    rewrite Hsplit at 1. by rewrite (find_first (sectionMatches query)).
Qed.

Lemma elem_of_allAscii (c : ascii) : In c allAscii.
Proof.
  unfold allAscii. rewrite <- (ascii_nat_embedding c).
  apply in_map, in_seq. pose proof (nat_ascii_bounded c). lia.
Qed.

Lemma sameLetter_lowerChar a b :
  sameLetter a b = true → lowerChar a = lowerChar b.
Proof.
  assert (forallb (fun x => forallb (fun y =>
            implb (sameLetter x y) (Ascii.eqb (lowerChar x) (lowerChar y)))
            allAscii) allAscii = true) as Hall by (vm_compute; reflexivity).
  rewrite forallb_forall in Hall. specialize (Hall a (elem_of_allAscii a)).
  rewrite forallb_forall in Hall. specialize (Hall b (elem_of_allAscii b)).
  intros Hsame. rewrite Hsame in Hall. by apply Ascii.eqb_eq.
Qed.

Lemma sameUpToCase_toLowerCase s t :
  sameUpToCase s t → toLowerCase s = toLowerCase t.
Proof.
  induction 1 as [|a b s t Hab _ IH]; [done|].
  simpl. by rewrite (sameLetter_lowerChar a b Hab), IH.
Qed.

(** X9.  The lookup ignores case, in the query and in the titles.  Two
    queries that differ only in the case of their letters match the same
    section, and when they match the answers are identical.  A query that
    differs from the title of a section only in the case of its letters
    always finds a section. *)
Theorem section_lookup_ignores_case (content query query' : text) :
  sameUpToCase query query' →
  Metadata.currentSection (PaginationResult.metadata (getSection content query))
  = Metadata.currentSection (PaginationResult.metadata (getSection content query'))
  ∧ (Metadata.currentSection
       (PaginationResult.metadata (getSection content query)) ≠ None →
     getSection content query = getSection content query')
  ∧ (∀ s, s ∈ parseSections content →
          sameUpToCase query (DocSection.title s) →
          Metadata.currentSection
            (PaginationResult.metadata (getSection content query')) ≠ None).
Proof.
  intros Hcase%sameUpToCase_toLowerCase.
  unfold getSection, sectionMatches. rewrite <- Hcase.
  split; [by destruct (List.find _ _)|]. split.
  { destruct (List.find _ _); simpl; [done|]. intros H. by contradict H. }
  intros s Hs Htitle%sameUpToCase_toLowerCase.
  destruct (List.find _ _) eqn:Hfind; [done|].
  apply find_none_iff in Hfind. rewrite Forall_forall in Hfind.
  specialize (Hfind s Hs). simpl in Hfind.
  by rewrite Htitle, includes_refl in Hfind.
Qed.

Lemma section_lookup_ignores_case_witness :
  Metadata.currentSection
    (PaginationResult.metadata (getSection doc_AB (lit "b")))
  = Metadata.currentSection
      (PaginationResult.metadata (getSection doc_AB (lit "B")))
  ∧ (Metadata.currentSection
       (PaginationResult.metadata (getSection doc_AB (lit "b"))) ≠ None →
     getSection doc_AB (lit "b") = getSection doc_AB (lit "B"))
  ∧ (∀ s, s ∈ parseSections doc_AB →
          sameUpToCase (lit "b") (DocSection.title s) →
          Metadata.currentSection
            (PaginationResult.metadata (getSection doc_AB (lit "B"))) ≠ None).
Proof.
  apply (section_lookup_ignores_case doc_AB (lit "b") (lit "B")).
  by repeat constructor.
Defined.

(** ** Pages *)

Lemma split_lines_no_newline sep s :
  Forall (fun line => Forall (fun c => c ≠ sep) line) (split sep s).
Proof.
  induction s as [|c s IH]; simpl; [by repeat constructor|].
  destruct (Ascii.eqb_spec c sep) as [->|Hne]; [by constructor|].
  destruct (split sep s) as [|h t]; [by repeat constructor|].
  inversion IH; subst. by repeat constructor.
Qed.

Lemma split_line sep (line rest : text) :
  Forall (fun c => c ≠ sep) line →
  split sep line = [line]
  ∧ split sep (line ++ sep :: rest) = line :: split sep rest.
Proof.
  induction 1 as [|c line Hc _ [IH1 IH2]]; simpl.
  - by rewrite Ascii.eqb_refl.
  - apply Ascii.eqb_neq in Hc. rewrite Hc, IH1, IH2. done.
Qed.

Lemma split_join sep (lines : list text) :
  lines ≠ [] →
  Forall (fun line => Forall (fun c => c ≠ sep) line) lines →
  split sep (join [sep] lines) = lines.
Proof.
  intros Hnil Hall. induction Hall as [|line rest Hline Hrest IH]; [done|].
  destruct rest as [|line' rest].
  - simpl. by apply split_line.
  - rewrite join_cons by done.
    change (line ++ [sep] ++ join [sep] (line' :: rest))
      with (line ++ sep :: join [sep] (line' :: rest)).
    rewrite (proj2 (split_line sep line _ Hline)). by rewrite IH.
Qed.

Lemma getPage_in_range content page pageSize :
  1 ≤ page ≤ ceilDiv (Z.of_nat (length (split nl content))) pageSize →
  getPage content page pageSize
  = validPage
      (join [nl]
         (slice (split nl content) ((page - 1) * pageSize)
            (Z.min ((page - 1) * pageSize + pageSize)
               (Z.of_nat (length (split nl content))))))
      page (ceilDiv (Z.of_nat (length (split nl content))) pageSize) pageSize.
Proof.
  intros Hpage. unfold getPage, validPage.
  rewrite (proj2 (Z.ltb_ge page 1)) by lia.
  by rewrite Z.gtb_ltb, (proj2 (Z.ltb_ge _ _)) by lia.
Qed.

(** X10.  With a page size of one line or more there is always a first
    page, also for the empty document, whose single page is empty. *)
Theorem first_page_exists (content : text) (pageSize : Z) :
  1 ≤ pageSize →
  (∃ totalPages,
     Metadata.totalPages (PaginationResult.metadata (getPage content 1 pageSize))
       = Some totalPages ∧ 1 ≤ totalPages)
  ∧ Metadata.currentPage (PaginationResult.metadata (getPage content 1 pageSize))
    = Some 1
  ∧ getPage [] 1 pageSize = validPage [] 1 1 pageSize.
Proof.
  intros Hps.
  assert (∀ c, 1 ≤ ceilDiv (Z.of_nat (length (split nl c))) pageSize) as Hone.
  { intros c. pose proof (split_not_nil nl c) as Hnil.
    pose proof (ceilDiv_bounds (Z.of_nat (length (split nl c))) pageSize
                  ltac:(lia)) as [_ Hhi].
    destruct (split nl c); [done|]. simpl length in *. nia. }
  split; [|split].
  - eexists. split; [apply getPage_totalPages|apply Hone].
  - rewrite getPage_in_range; [done|]. specialize (Hone content). lia.
  - rewrite getPage_in_range by (specialize (Hone []); lia).
    assert (ceilDiv 1 pageSize = 1) as Hc.
    { pose proof (ceilDiv_bounds 1 pageSize ltac:(lia)). nia. }
    simpl split. simpl length. change (Z.of_nat 1) with 1. rewrite Hc.
    f_equal. unfold slice. simpl length. rewrite !relIndex_nonneg by lia.
    replace (Z.to_nat (Z.min (Z.min ((1 - 1) * pageSize + pageSize) 1) (Z.of_nat 1)))
      with 1%nat by lia.
    by replace (Z.to_nat (Z.min ((1 - 1) * pageSize) (Z.of_nat 1))) with O by lia.
Qed.

Lemma first_page_exists_witness :
  (∃ totalPages,
     Metadata.totalPages (PaginationResult.metadata (getPage doc_AB 1 5000))
       = Some totalPages ∧ 1 ≤ totalPages)
  ∧ Metadata.currentPage (PaginationResult.metadata (getPage doc_AB 1 5000))
    = Some 1
  ∧ getPage [] 1 5000 = validPage [] 1 1 5000.
Proof. apply (first_page_exists doc_AB 5000). lia. Defined.

(** X11.  With a negative page size no page is in range: the page count
    is zero or less and every request gets the invalid-page answer, whose
    metadata has the page count and the page size and no current page.
    Its text is the invalid-page message; it is given in full when the
    page and the number of lines are safe integers (below [2^53]), which
    are printed digit for digit. *)
Theorem negative_page_size (content : text) (page pageSize : Z) :
  pageSize < 0 →
  ∃ totalPages,
    totalPages ≤ 0
    ∧ PaginationResult.metadata (getPage content page pageSize)
      = Metadata.mk None None (Some totalPages) None (Some pageSize)
    ∧ (∃ rest,
         PaginationResult.content (getPage content page pageSize)
         = lit "# Invalid Page" ++ [nl; nl] ++ lit "Page " ++ rest)
    ∧ (- 2 ^ 53 < page < 2 ^ 53 →
       Z.of_nat (length (split nl content)) < 2 ^ 53 →
       - 2 ^ 53 < totalPages
       ∧ getPage content page pageSize = invalidPage page totalPages pageSize).
Proof.
  intros Hps. exists (ceilDiv (Z.of_nat (length (split nl content))) pageSize).
  assert (- Z.of_nat (length (split nl content))
            ≤ ceilDiv (Z.of_nat (length (split nl content))) pageSize ≤ 0)
    as [Hge Hle].
  { unfold ceilDiv.
    pose proof (Z.div_mod (- Z.of_nat (length (split nl content))) pageSize
                  ltac:(lia)) as Hdm.
    pose proof (Z.mod_neg_bound (- Z.of_nat (length (split nl content))) pageSize
                  Hps) as Hr.
    nia. }
  assert (getPage content page pageSize
          = invalidPage page
              (ceilDiv (Z.of_nat (length (split nl content))) pageSize) pageSize)
    as ->.
  { unfold getPage, invalidPage.
    destruct (Z.ltb_spec page 1) as [Hlt|Hpos]; [done|].
    by rewrite Z.gtb_ltb, (proj2 (Z.ltb_lt _ _)) by lia. }
  split; [done|]. split; [done|]. split; [by eexists|].
  intros _ Hlen. split; [lia|done].
Qed.

Lemma negative_page_size_witness :
  ∃ totalPages,
    totalPages ≤ 0
    ∧ PaginationResult.metadata (getPage doc_AB 1 (-2))
      = Metadata.mk None None (Some totalPages) None (Some (-2))
    ∧ (∃ rest,
         PaginationResult.content (getPage doc_AB 1 (-2))
         = lit "# Invalid Page" ++ [nl; nl] ++ lit "Page " ++ rest)
    ∧ (- 2 ^ 53 < 1 < 2 ^ 53 →
       Z.of_nat (length (split nl doc_AB)) < 2 ^ 53 →
       - 2 ^ 53 < totalPages
       ∧ getPage doc_AB 1 (-2) = invalidPage 1 totalPages (-2)).
Proof. apply (negative_page_size doc_AB 1 (-2)). lia. Defined.

(** X12.  A page in range holds the lines of the document from line
    [(page - 1) * pageSize] up to, not including, line [page * pageSize]:
    split again, the text of the page gives back exactly those lines.  So
    every page has [pageSize] lines, except the last one, which has the
    lines that are left. *)
Theorem page_lines (content : text) (page pageSize : Z) :
  1 ≤ pageSize →
  1 ≤ page ≤ ceilDiv (Z.of_nat (length (split nl content))) pageSize →
  let lines := split nl content in
  let pageLines := split nl (PaginationResult.content (getPage content page pageSize)) in
  pageLines = slice lines ((page - 1) * pageSize) (page * pageSize)
  ∧ Z.of_nat (length pageLines)
    = Z.min pageSize (Z.of_nat (length lines) - (page - 1) * pageSize).
Proof.
  intros Hps Hpage lines pageLines.
  pose proof (ceilDiv_bounds (Z.of_nat (length lines)) pageSize ltac:(lia))
    as [Hlo Hhi]. fold lines in Hpage.
  set (i := Z.to_nat (page - 1)).
  set (q := Z.to_nat pageSize).
  assert (pageLines = take q (drop (i * q) lines)) as Hlines.
  { unfold pageLines. replace page with (Z.of_nat i + 1) by lia.
    rewrite getPage_valid by (fold lines; lia). fold lines q.
    apply split_join.
    - intros Hnil%(f_equal length). rewrite length_take, length_drop in Hnil.
      simpl in Hnil. nia.
    - apply Forall_take, Forall_drop, split_lines_no_newline. }
  split.
  - rewrite Hlines.
    replace ((page - 1) * pageSize) with (Z.of_nat (i * q)) by nia.
    replace (page * pageSize) with (Z.of_nat (S i * q)) by nia.
    rewrite slice_nat. f_equal. lia.
  - rewrite Hlines, length_take, length_drop. nia.
Qed.

Lemma page_lines_witness :
  let lines := split nl doc_AB in
  let pageLines := split nl (PaginationResult.content (getPage doc_AB 3 2)) in
  pageLines = slice lines ((3 - 1) * 2) (3 * 2)
  ∧ Z.of_nat (length pageLines) = Z.min 2 (Z.of_nat (length lines) - (3 - 1) * 2).
Proof. apply (page_lines doc_AB 3 2); [lia|]. vm_compute. split; discriminate. Defined.

(** X13.  When the page size is at least the number of lines, the document
    has one page and that page is the whole document. *)
Theorem whole_document_on_one_page (content : text) (pageSize : Z) :
  Z.of_nat (length (split nl content)) ≤ pageSize →
  getPage content 1 pageSize = validPage content 1 1 pageSize.
Proof.
  intros Hfits. pose proof (split_not_nil nl content) as Hnil.
  assert (1 ≤ Z.of_nat (length (split nl content))) as Hlen.
  { destruct (split nl content); [done|]. simpl. lia. }
  pose proof (ceilDiv_bounds (Z.of_nat (length (split nl content))) pageSize
                ltac:(lia)) as [Hlo Hhi].
  assert (ceilDiv (Z.of_nat (length (split nl content))) pageSize = 1) as Hone by nia.
  rewrite getPage_in_range by lia. rewrite Hone. f_equal.
  replace ((1 - 1) * pageSize) with (Z.of_nat 0) by lia.
  replace (Z.min (Z.of_nat 0 + pageSize) (Z.of_nat (length (split nl content))))
    with (Z.of_nat (length (split nl content))) by lia.
  rewrite slice_nat, Nat.sub_0_r. simpl. rewrite take_ge by done.
  apply join_split.
Qed.

Lemma whole_document_on_one_page_witness :
  getPage doc_AB 1 5000 = validPage doc_AB 1 1 5000.
Proof. apply (whole_document_on_one_page doc_AB 5000). vm_compute. discriminate. Defined.

(** ** The cache chain, step by step *)

Lemma getDocumentContent_disk_hit env filename cacheType w (c : CachedContent.t) :
  memoryFresh (nowAtCheck env) cacheType w = false →
  httpResponse env filename = None →
  disk w !! cacheFile filename = Some c →
  diskReadable env = true →
  isCacheValid (nowAtLoad env) c = true →
  getDocumentContent env filename cacheType w
  = (CachedContent.content c,
     match cacheType with
     | llms => mkWorld (Some c) (llmsFullTxtCache w) (disk w)
     | full => mkWorld (llmsTxtCache w) (Some c) (disk w)
     end,
     [HttpGet filename; Warn; ReadFile (cacheFile filename)]).
Proof.
  intros Hmiss Hnet Hfile Hread Hvalid.
  rewrite getDocumentContent_miss by done.
  io_run. rewrite Hnet, Hfile, Hread, Hvalid. by destruct cacheType.
Qed.

Lemma getDocumentContent_fetched env filename cacheType w (body : text) :
  memoryFresh (nowAtCheck env) cacheType w = false →
  httpResponse env filename = Some body →
  let stored :=
    CachedContent.mk
      (match cacheType with
       | full => enhanceWithProjectContext env body
       | llms => body
       end) (nowAtStore env) in
  ∃ w' trace,
    getDocumentContent env filename cacheType w
      = (CachedContent.content stored, w', trace)
    ∧ slot cacheType w' = Some stored
    ∧ disk w' = (if diskWritable env
                 then <[cacheFile filename := stored]> (disk w)
                 else disk w)
    ∧ fetchCount trace = 1%nat.
Proof.
  intros Hmiss Hnet stored. rewrite getDocumentContent_miss by done.
  io_run. rewrite Hnet.
  destruct (diskWritable env), cacheType; by eexists _, _.
Qed.

(** X14.  The network is tried before the cache directory, and once: when
    the memory slot does not answer, the fetch fails and the cache
    directory holds a readable file that is not stale, the text of the file
    is returned as it is, the slot is filled with the file (keeping the
    time stamp of the file), and the cache directory is unchanged. *)
Theorem disk_cache_hit env filename cacheType w (c : CachedContent.t) :
  memoryFresh (nowAtCheck env) cacheType w = false →
  httpResponse env filename = None →
  disk w !! cacheFile filename = Some c →
  diskReadable env = true →
  isCacheValid (nowAtLoad env) c = true →
  getDocumentContent env filename cacheType w
  = (CachedContent.content c,
     match cacheType with
     | llms => mkWorld (Some c) (llmsFullTxtCache w) (disk w)
     | full => mkWorld (llmsTxtCache w) (Some c) (disk w)
     end,
     [HttpGet filename; Warn; ReadFile (cacheFile filename)]).
Proof. apply getDocumentContent_disk_hit. Qed.

Lemma disk_cache_hit_witness :
  getDocumentContent (mkEnv 5 (fun _ => None) 5 true true 5 true None)
    "llms.txt" llms world_disk_AB
  = (doc_AB,
     mkWorld (Some (CachedContent.mk doc_AB 0)) None (disk world_disk_AB),
     [HttpGet "llms.txt"; Warn; ReadFile (cacheFile "llms.txt")]).
Proof.
  apply (disk_cache_hit (mkEnv 5 (fun _ => None) 5 true true 5 true None)
           "llms.txt" llms world_disk_AB (CachedContent.mk doc_AB 0));
    reflexivity.
Defined.

(** X15.  A successful fetch is written through: the text (with the
    project-context header for the full kind) is returned, the memory slot
    holds it stamped with the time of the store, and the cache directory
    holds the same entry when the write succeeds and is unchanged when it
    fails.  The network is asked once. *)
Theorem fetch_writes_through env filename cacheType w (body : text) :
  memoryFresh (nowAtCheck env) cacheType w = false →
  httpResponse env filename = Some body →
  let stored :=
    CachedContent.mk
      (match cacheType with
       | full => enhanceWithProjectContext env body
       | llms => body
       end) (nowAtStore env) in
  ∃ w' trace,
    getDocumentContent env filename cacheType w
      = (CachedContent.content stored, w', trace)
    ∧ slot cacheType w' = Some stored
    ∧ disk w' = (if diskWritable env
                 then <[cacheFile filename := stored]> (disk w)
                 else disk w)
    ∧ fetchCount trace = 1%nat.
Proof. apply getDocumentContent_fetched. Qed.

Lemma fetch_writes_through_witness :
  ∃ w' trace,
    getDocumentContent (env_online 7 doc_AB) "llms.txt" llms world_empty
      = (doc_AB, w', trace)
    ∧ slot llms w' = Some (CachedContent.mk doc_AB 7)
    ∧ disk w' = <[cacheFile "llms.txt" := CachedContent.mk doc_AB 7]> ∅
    ∧ fetchCount trace = 1%nat.
Proof.
  apply (fetch_writes_through (env_online 7 doc_AB) "llms.txt" llms world_empty
           doc_AB); reflexivity.
Defined.

(** X16.  Resolving one document never touches the memory slot of the
    other kind, nor any file of the cache directory but its own. *)
Theorem resolution_frame env filename cacheType w :
  ∃ content w' trace,
    getDocumentContent env filename cacheType w = (content, w', trace)
    ∧ match cacheType with
      | llms => llmsFullTxtCache w' = llmsFullTxtCache w
      | full => llmsTxtCache w' = llmsTxtCache w
      end
    ∧ ∀ file, file ≠ cacheFile filename → disk w' !! file = disk w !! file.
Proof.
  unfold getDocumentContent, mbind at 1, IO_bind, getWorld.
  assert (∃ content w' trace,
            refresh env filename cacheType w = (content, w', trace)
            ∧ match cacheType with
              | llms => llmsFullTxtCache w' = llmsFullTxtCache w
              | full => llmsTxtCache w' = llmsTxtCache w
              end
            ∧ ∀ file, file ≠ cacheFile filename → disk w' !! file = disk w !! file)
    as (content & w' & trace & Hrun & Hslot & Hdisk).
  { io_run. destruct (httpResponse env filename) as [body|].
    - destruct (diskWritable env), cacheType; eexists _, _, _;
        (split; [done|]); simpl; (split; [done|]);
        intros file Hne; by rewrite ?lookup_insert_ne.
    - destruct (disk w !! cacheFile filename) as [c|];
        [destruct (diskReadable env);
         [destruct (isCacheValid (nowAtLoad env) c);
          [|destruct (unlinkOk env)]|]|];
        destruct cacheType; eexists _, _, _;
        (split; [done|]); simpl; (split; [done|]);
        intros file Hne; by rewrite ?lookup_delete_ne. }
  destruct (slot cacheType w) as [cache|].
  - destruct (isCacheValid (nowAtCheck env) cache).
    + eexists _, _, _. split; [done|]. by destruct cacheType.
    + rewrite Hrun. by eexists _, _, _.
  - rewrite Hrun. by eexists _, _, _.
Qed.

(** X17.  A resolution asks the network at most once: not at all when the
    memory slot answers, in which case it does no I/O whatever and leaves
    the world as it is, and exactly once otherwise. *)
Theorem fetch_at_most_once env filename cacheType w :
  ∃ content w' trace,
    getDocumentContent env filename cacheType w = (content, w', trace)
    ∧ fetchCount trace
      = (if memoryFresh (nowAtCheck env) cacheType w then O else 1%nat)
    ∧ (memoryFresh (nowAtCheck env) cacheType w = true → w' = w ∧ trace = []).
Proof.
  destruct (memoryFresh (nowAtCheck env) cacheType w) eqn:Hfresh.
  - unfold memoryFresh in Hfresh.
    destruct (slot cacheType w) as [cache|] eqn:Hslot; [|done].
    rewrite (getDocumentContent_hit _ _ _ _ _ Hslot Hfresh).
    by eexists _, _, _.
  - rewrite getDocumentContent_miss by done. io_run.
    destruct (httpResponse env filename) as [body|].
    + destruct (diskWritable env), cacheType; by eexists _, _, _.
    + destruct (disk w !! cacheFile filename) as [c|];
        [destruct (diskReadable env);
         [destruct (isCacheValid (nowAtLoad env) c);
          [|destruct (unlinkOk env)]|]|];
        by eexists _, _, _.
Qed.

(** X18.  What is saved to the cache directory is what is loaded from it:
    after a successful save, a load that can read the file and finds it
    not stale returns the saved entry and changes nothing. *)
Theorem disk_cache_roundtrip env env' filename (c : CachedContent.t) w :
  diskWritable env = true →
  diskReadable env' = true →
  isCacheValid (nowAtLoad env') c = true →
  ∃ w1 trace,
    saveToDiskCache env filename c w = (tt, w1, trace)
    ∧ loadFromDiskCache env' filename w1
      = (Some c, w1, [ReadFile (cacheFile filename)]).
Proof.
  intros Hwrite Hread Hvalid. io_run. rewrite Hwrite. eexists _, _.
  split; [done|]. simpl. by rewrite lookup_insert_eq, Hread, Hvalid.
Qed.

Lemma disk_cache_roundtrip_witness :
  ∃ w1 trace,
    saveToDiskCache (env_online 7 doc_AB) "llms.txt" (CachedContent.mk doc_AB 7)
      world_empty = (tt, w1, trace)
    ∧ loadFromDiskCache (env_online 8 doc_AB) "llms.txt" w1
      = (Some (CachedContent.mk doc_AB 7), w1, [ReadFile (cacheFile "llms.txt")]).
Proof.
  apply (disk_cache_roundtrip (env_online 7 doc_AB) (env_online 8 doc_AB)
           "llms.txt" (CachedContent.mk doc_AB 7) world_empty); reflexivity.
Defined.

(** X19.  A load from the cache directory never returns a stale entry: it
    returns an entry exactly when the file exists, can be read and is not
    stale, and then changes nothing.  It never touches the memory slots,
    and the only change it can make to the cache directory is to delete
    the file it was asked for, which happens only when that file is
    stale. *)
Theorem disk_load_outcome env filename w :
  ∃ r w' trace,
    loadFromDiskCache env filename w = (r, w', trace)
    ∧ (∀ c, r = Some c ↔
            disk w !! cacheFile filename = Some c
            ∧ diskReadable env = true
            ∧ isCacheValid (nowAtLoad env) c = true)
    ∧ (is_Some r → w' = w)
    ∧ llmsTxtCache w' = llmsTxtCache w
    ∧ llmsFullTxtCache w' = llmsFullTxtCache w
    ∧ (disk w' = disk w
       ∨ disk w' = delete (cacheFile filename) (disk w)
         ∧ ∃ c, disk w !! cacheFile filename = Some c
                ∧ isCacheValid (nowAtLoad env) c = false).
Proof.
  io_run. destruct w as [slot1 slot2 files]. simpl.
  destruct (files !! cacheFile filename) as [c|] eqn:Hfile;
    [destruct (diskReadable env) eqn:Hread;
     [destruct (isCacheValid (nowAtLoad env) c) eqn:Hvalid;
      [|destruct (unlinkOk env)]|]|];
    eexists _, _, _; (split; [done|]); simpl;
    (split; [intros c'; split; [try done; by intros [= <-]|]|]);
    try (intros (? & ? & ?); congruence);
    (split; [try done; by intros [? ?]|]);
    (split; [done|]); (split; [done|]);
    try (by left).
  right. split; [done|]. by exists c.
Qed.

(** X20.  What was fetched survives a restart while it is fresh: after a
    fetch whose write to the cache directory succeeded, a process that
    starts with empty memory slots and no network gets the same text from
    the cache directory, as long as the entry is not stale, and its memory
    slot then holds the entry with the time of the original fetch. *)
Theorem offline_restart env env' filename cacheType w (body : text) :
  memoryFresh (nowAtCheck env) cacheType w = false →
  httpResponse env filename = Some body →
  diskWritable env = true →
  httpResponse env' filename = None →
  diskReadable env' = true →
  nowAtLoad env' - nowAtStore env < CACHE_TTL_MS →
  ∃ content w1 trace1 w2 trace2,
    getDocumentContent env filename cacheType w = (content, w1, trace1)
    ∧ getDocumentContent env' filename cacheType (restart w1)
      = (content, w2, trace2)
    ∧ slot cacheType w2 = Some (CachedContent.mk content (nowAtStore env))
    ∧ disk w2 = disk w1.
Proof.
  intros Hmiss Hnet Hwrite Hnet' Hread Hfresh.
  destruct (getDocumentContent_fetched env filename cacheType w body Hmiss Hnet)
    as (w1 & trace1 & Hrun & Hslot & Hdisk & _).
  rewrite Hwrite in Hdisk. simpl in Hrun.
  eexists _, w1, trace1, _, _. split; [exact Hrun|].
  rewrite (getDocumentContent_disk_hit env' filename cacheType (restart w1)
             (CachedContent.mk
                (match cacheType with
                 | full => enhanceWithProjectContext env body
                 | llms => body
                 end) (nowAtStore env))).
  - split; [done|]. by destruct cacheType.
  - unfold memoryFresh, restart. by destruct cacheType.
  - done.
  - unfold restart. simpl. rewrite Hdisk. apply lookup_insert_eq.
  - done.
  - unfold isCacheValid. simpl. by apply Z.ltb_lt.
Qed.

Lemma offline_restart_witness :
  ∃ content w1 trace1 w2 trace2,
    getDocumentContent (env_online 7 doc_AB) "llms.txt" llms world_empty
      = (content, w1, trace1)
    ∧ getDocumentContent (mkEnv 9 (fun _ => None) 9 true true 9 true None)
        "llms.txt" llms (restart w1)
      = (content, w2, trace2)
    ∧ slot llms w2 = Some (CachedContent.mk content (nowAtStore (env_online 7 doc_AB)))
    ∧ disk w2 = disk w1.
Proof.
  apply (offline_restart (env_online 7 doc_AB)
           (mkEnv 9 (fun _ => None) 9 true true 9 true None)
           "llms.txt" llms world_empty doc_AB); reflexivity.
Defined.

(** ** Every answer carries metadata *)

(** X21.  The last [return] of [getPaginatedDocs] (the whole document with
    empty metadata, marked in the source as not to be reached) is indeed
    never reached: whatever the options, the answer reports a number of
    sections or a number of pages. *)
Theorem result_has_metadata env type options w :
  ∃ r w' trace,
    getPaginatedDocs env type options w = (r, w', trace)
    ∧ (Metadata.totalSections (PaginationResult.metadata r) ≠ None
       ∨ Metadata.totalPages (PaginationResult.metadata r) ≠ None)
    ∧ (0 < metadataKeys (PaginationResult.metadata r))%nat.
Proof.
  rewrite getPaginatedDocs_run.
  destruct (resolveDoc env type w) as [[fullContent w'] trace].
  eexists _, _, _. split; [done|].
  generalize (options ≫= Options.section) (options ≫= Options.page)
    (options ≫= Options.pageSize).
  intros section page pageSize. unfold selectView.
  destruct (truthyText section) eqn:Hsection; simpl.
  - unfold getSection. destruct (List.find _ _); simpl;
      (split; [by left|unfold metadataKeys; simpl; lia]).
  - destruct page as [page|]; simpl.
    + destruct (negb (page =? 0)); simpl;
        [|split; [by left|unfold metadataKeys; simpl; lia]].
      unfold getPage. destruct (_ || _); simpl;
        (split; [by right|unfold metadataKeys; simpl; lia]).
    + split; [by left|unfold metadataKeys; simpl; lia].
Qed.

(** ** The documentation tool *)

Lemma docToolHandler_run env type section page pageSize w :
  docToolHandler env type section page pageSize w =
  let '(r, w', trace) :=
    getPaginatedDocs env type (Some (Options.mk section page pageSize)) w in
  (formatDocResponse r, w', trace).
Proof.
  unfold docToolHandler. unfold mbind at 1. unfold IO_bind.
  destruct (getPaginatedDocs _ _ _ _) as [[r w'] trace]. by io_ret.
Qed.

Lemma formatDocResponse_sections (body : text) (n : Z) :
  formatDocResponse
    (PaginationResult.mk body (Metadata.mk (Some n) None None None None))
  = body ++ paginationInfo
      ++ (if n =? 0 then []
          else lit "- Total sections: " ++ numToString n ++ [nl]).
Proof.
  unfold formatDocResponse, paginationInfo. cbn -[numToString].
  destruct (n =? 0); cbn -[numToString]; by rewrite ?app_nil_r.
Qed.

Lemma formatDocResponse_section (body title : text) (n : Z) :
  n ≠ 0 → title ≠ [] →
  formatDocResponse
    (PaginationResult.mk body (Metadata.mk (Some n) (Some title) None None None))
  = body ++ paginationInfo
      ++ lit "- Total sections: " ++ numToString n ++ [nl]
      ++ lit "- Current section: " ++ title ++ [nl].
Proof.
  intros Hn%Z.eqb_neq Htitle.
  unfold formatDocResponse, paginationInfo. cbn -[numToString]. rewrite Hn.
  destruct title as [|c title]; [done|]. cbn -[numToString].
  rewrite <- !app_assoc. cbn -[numToString]. by rewrite ?app_nil_r.
Qed.

Lemma formatDocResponse_page (body : text) (page totalPages pageSize : Z) :
  page ≠ 0 → totalPages ≠ 0 → pageSize ≠ 0 →
  formatDocResponse (validPage body page totalPages pageSize)
  = body ++ paginationInfo
      ++ lit "- Total pages: " ++ numToString totalPages ++ [nl]
      ++ lit "- Current page: " ++ numToString page ++ lit "/"
      ++ numToString totalPages ++ [nl]
      ++ lit "- Page size: " ++ numToString pageSize ++ lit " lines" ++ [nl].
Proof.
  intros Hp%Z.eqb_neq Ht%Z.eqb_neq Hs%Z.eqb_neq.
  unfold formatDocResponse, paginationInfo, validPage. cbn -[numToString].
  rewrite Hp, Ht, Hs. cbn -[numToString].
  rewrite <- !app_assoc. cbn -[numToString].
  rewrite <- !app_assoc. cbn -[numToString]. done.
Qed.

(** X22.  Called without section and page, the tool answers with the table
    of contents followed by the pagination footer.  The footer gives the
    number of sections, except when the document has none: a count of zero
    is left out and the footer has no entry. *)
Theorem doc_tool_table_of_contents env type pageSize w :
  docToolHandler env type None None pageSize w =
  let '(content, w', trace) := resolveDoc env type w in
  (PaginationResult.content (getTableOfContents content) ++ paginationInfo
     ++ match parseSections content with
        | [] => []
        | _ :: _ =>
            lit "- Total sections: "
              ++ numToString (Z.of_nat (length (parseSections content))) ++ [nl]
        end,
   w', trace).
Proof.
  rewrite docToolHandler_run, getPaginatedDocs_run.
  destruct (resolveDoc env type w) as [[content w'] trace].
  f_equal. f_equal.
  change (selectView content _ _ _) with (getTableOfContents content).
  unfold getTableOfContents. rewrite formatDocResponse_sections.
  by destruct (parseSections content).
Qed.

(** X23.  Asked for a page in range, the tool answers with the text of the
    page followed by the footer with three entries: the number of pages,
    the page as [page/totalPages], and the page size.  The page size and
    the number of lines are safe integers (below [2^53]), so that every
    number of the footer is printed digit for digit. *)
Theorem doc_tool_page env type (page pageSize : Z) w content w' trace :
  resolveDoc env type w = (content, w', trace) →
  1 ≤ pageSize < 2 ^ 53 →
  Z.of_nat (length (split nl content)) < 2 ^ 53 →
  1 ≤ page ≤ ceilDiv (Z.of_nat (length (split nl content))) pageSize →
  let totalPages := ceilDiv (Z.of_nat (length (split nl content))) pageSize in
  totalPages < 2 ^ 53
  ∧ docToolHandler env type None (Some page) (Some pageSize) w
    = (PaginationResult.content (getPage content page pageSize) ++ paginationInfo
         ++ lit "- Total pages: " ++ numToString totalPages ++ [nl]
         ++ lit "- Current page: " ++ numToString page ++ lit "/"
         ++ numToString totalPages ++ [nl]
         ++ lit "- Page size: " ++ numToString pageSize ++ lit " lines" ++ [nl],
       w', trace).
Proof.
  intros Hrun Hps Hlen Hpage totalPages.
  pose proof (ceilDiv_bounds (Z.of_nat (length (split nl content))) pageSize
                ltac:(lia)) as [Hlo Hhi]. fold totalPages in Hlo, Hhi, Hpage.
  split; [nia|].
  rewrite docToolHandler_run, getPaginatedDocs_run, Hrun.
  f_equal. f_equal.
  change (selectView content _ _ _)
    with (selectView content None (Some page) (Some pageSize)).
  assert (selectView content None (Some page) (Some pageSize)
          = getPage content page pageSize) as ->.
  { unfold selectView, orElse. simpl.
    rewrite (proj2 (Z.eqb_neq page 0)), (proj2 (Z.eqb_neq pageSize 0)) by lia.
    done. }
  rewrite getPage_in_range by done.
  rewrite formatDocResponse_page by (fold totalPages; lia). done.
Qed.

Lemma doc_tool_page_witness :
  ceilDiv (Z.of_nat (length (split nl doc_AB))) 2 < 2 ^ 53
  ∧ docToolHandler env_quiet standardDocs None (Some 2) (Some 2) world_AB
    = (PaginationResult.content (getPage doc_AB 2 2) ++ paginationInfo
         ++ lit "- Total pages: " ++ numToString 3 ++ [nl]
         ++ lit "- Current page: " ++ numToString 2 ++ lit "/"
         ++ numToString 3 ++ [nl]
         ++ lit "- Page size: " ++ numToString 2 ++ lit " lines" ++ [nl],
       world_AB, []).
Proof.
  apply (doc_tool_page env_quiet standardDocs 2 2 world_AB doc_AB world_AB []);
    [reflexivity | lia | vm_compute; reflexivity | vm_compute; split; discriminate].
Defined.

(** X24.  Asked for a section with a query that is not empty and matches,
    the tool answers with the text of the section followed by the footer
    with two entries: the number of sections and the title of the section
    found.  Both are always printed: a section was found, so the count is
    not zero, and a title that contains a query that is not empty is not
    empty. *)
Theorem doc_tool_section env type (query title : text) page pageSize
    w content w' trace :
  resolveDoc env type w = (content, w', trace) →
  query ≠ [] →
  Metadata.currentSection (PaginationResult.metadata (getSection content query))
    = Some title →
  docToolHandler env type (Some query) page pageSize w
  = (PaginationResult.content (getSection content query) ++ paginationInfo
       ++ lit "- Total sections: "
       ++ numToString (Z.of_nat (length (parseSections content))) ++ [nl]
       ++ lit "- Current section: " ++ title ++ [nl],
     w', trace).
Proof.
  intros Hrun Hquery Htitle.
  rewrite docToolHandler_run, getPaginatedDocs_run, Hrun.
  f_equal. f_equal.
  change (selectView content _ _ _)
    with (selectView content (Some query) page pageSize).
  assert (selectView content (Some query) page pageSize = getSection content query)
    as ->.
  { unfold selectView. simpl. by destruct query. }
  unfold getSection in *.
  destruct (List.find (sectionMatches query) (parseSections content))
    as [s|] eqn:Hfind; [|done].
  simpl in Htitle. injection Htitle as <-.
  apply find_some in Hfind as [Hin Hmatch].
  apply formatDocResponse_section.
  - destruct (parseSections content); [done|]. simpl. lia.
  - intros Hempty. unfold sectionMatches in Hmatch. rewrite Hempty in Hmatch.
    apply includes_infix in Hmatch as (a & b & Hab). simpl in Hab.
    symmetry in Hab. apply app_eq_nil in Hab as [_ Hab].
    apply app_eq_nil in Hab as [Hab _]. by destruct query.
Qed.

Lemma doc_tool_section_witness :
  docToolHandler env_quiet standardDocs (Some (lit "b")) None None world_AB
  = (PaginationResult.content (getSection doc_AB (lit "b")) ++ paginationInfo
       ++ lit "- Total sections: "
       ++ numToString (Z.of_nat (length (parseSections doc_AB))) ++ [nl]
       ++ lit "- Current section: " ++ lit "B" ++ [nl],
     world_AB, []).
Proof.
  apply (doc_tool_section env_quiet standardDocs (lit "b") (lit "B") None None
           world_AB doc_AB world_AB []); [reflexivity | discriminate | reflexivity].
Defined.

(** ** The sections of a document with the project-context header *)

Lemma headingKeys_shift lines index k :
  headingKeys lines (index + k) = map (shiftKey k) (headingKeys lines index).
Proof.
  revert index. induction lines as [|line rest IH]; intros index; [done|].
  simpl. rewrite map_app.
  replace (index + k + 1) with (index + 1 + k) by lia. rewrite IH.
  by destruct (headerMatch line) as [[g1 g2]|].
Qed.

(** X25.  For the full kind, when the project context is available and the
    project path holds no newline, the header put before the document
    brings two sections, "Current Project Context" (level 1, line 1) and
    "Available MCP Tools" (level 2, line 4); the sections of the document
    follow with the same levels and titles, eleven lines further down. *)
Theorem enhanced_document_sections env (body path : text) :
  projectPath env = Some path →
  Forall (fun c => c ≠ nl) path →
  map sectionKey (parseSections (enhanceWithProjectContext env body))
  = (1, 1, lit "Current Project Context")
    :: (4, 2, lit "Available MCP Tools")
    :: map (shiftKey 11) (map sectionKey (parseSections body)).
Proof.
  intros Hpath Hline. unfold enhanceWithProjectContext. rewrite Hpath.
  rewrite !parseSections_keys.
  assert (split nl (projectContextHeader path ++ body)
          = [[]; lit "# Current Project Context"; lit "Project Path: " ++ path;
             []; lit "## Available MCP Tools";
             lit "- vendure_add: Add plugins, entities, services to your project";
             lit "- vendure_migrate: Run database migrations";
             lit "- vendure_analyse: Analyze project structure (tasks: list_plugins, analyze_project_structure, check_vendure_installation, get_database_type)";
             []; lit "---"; []] ++ split nl body) as ->.
  { unfold projectContextHeader. rewrite <- !app_assoc.
    change (split nl ([] ++ nl :: lit "# Current Project Context"
              ++ nl :: (lit "Project Path: " ++ path)
              ++ nl :: [] ++ nl :: lit "## Available MCP Tools"
              ++ nl :: lit "- vendure_add: Add plugins, entities, services to your project"
              ++ nl :: lit "- vendure_migrate: Run database migrations"
              ++ nl :: lit "- vendure_analyse: Analyze project structure (tasks: list_plugins, analyze_project_structure, check_vendure_installation, get_database_type)"
              ++ nl :: [] ++ nl :: lit "---" ++ nl :: [] ++ nl :: body)
            = [[]; lit "# Current Project Context"; lit "Project Path: " ++ path;
               []; lit "## Available MCP Tools";
               lit "- vendure_add: Add plugins, entities, services to your project";
               lit "- vendure_migrate: Run database migrations";
               lit "- vendure_analyse: Analyze project structure (tasks: list_plugins, analyze_project_structure, check_vendure_installation, get_database_type)";
               []; lit "---"; []] ++ split nl body).
    assert (∀ line rest, Forall (fun c => c ≠ nl) line →
              split nl (line ++ nl :: rest) = line :: split nl rest) as Hsplit.
    { intros line rest Hl. by apply split_line. }
    rewrite !Hsplit; [done|..]; by repeat constructor. }
  cbn [headingKeys app].
  assert (headerMatch (lit "Project Path: " ++ path) = None) as -> by reflexivity.
  replace (0 + 1 + 1 + 1 + 1 + 1 + 1 + 1 + 1 + 1 + 1 + 1) with (0 + 11) by lia.
  rewrite headingKeys_shift. reflexivity.
Qed.

Lemma enhanced_document_sections_witness :
  map sectionKey
    (parseSections
       (enhanceWithProjectContext
          (mkEnv 0 (fun _ => None) 0 true true 0 true (Some (lit "/srv/shop")))
          doc_AB))
  = (1, 1, lit "Current Project Context")
    :: (4, 2, lit "Available MCP Tools")
    :: map (shiftKey 11) (map sectionKey (parseSections doc_AB)).
Proof.
  apply (enhanced_document_sections
           (mkEnv 0 (fun _ => None) 0 true true 0 true (Some (lit "/srv/shop")))
           doc_AB (lit "/srv/shop")); [reflexivity|].
  repeat constructor; discriminate.
Defined.
